(** * extract_queries.py: boolean search expressions to backend queries

    A shallow embedding of [src/extract_queries.py] and the properties of
    its tree builder ([create_exp_tree]), its four emitters ([inorder],
    [inorder_orm], [preorder], [preorder_elasticsearch]), the dispatcher
    ([create_query]) and the entry point ([generate_query]).

    Modelling choices.
    - A Python [str] is a [list ascii] (type [str]); string literals are
      read through the coercion [lit].  The characters of the model are
      the code points below 128; bytes above stand for no whitespace and
      no letter.
    - Python exceptions are the [Raise] results of the [result] monad.
    - Module globals ([BASE_QUERIES], [END_QUERIES]) and the console are
      the fields of [World]; [generate_query] threads a [World].
    - The interpreter allows only so many nested calls and raises
      [RecursionError] beyond.  [create_exp_tree_within budget] is the
      builder when [budget] nested calls of it are allowed, and
      [OutOfBudget] is that error.  [create_exp_tree] recurses on
      strictly shorter strings, so more nested calls than the
      expression has characters are always enough
      ([create_exp_tree_ok], [create_exp_tree_budget]):
      [create_exp_tree] is the builder under an interpreter that allows
      them, and the theorems on it say nothing of longer expressions.
      The emitters and [generate_query] are modelled under the same
      proviso, without a count of their own calls. *)

From Stdlib Require Import Ascii String List ZArith Lia Bool Arith.
Import ListNotations.

(* ================================================================= *)
(** ** Python strings *)

Module PyStr.

Definition str := list ascii.

Definition lit (s : string) : str := list_ascii_of_string s.

Definition str_eqb (a b : str) : bool :=
  if list_eq_dec ascii_dec a b then true else false.

(** [str.isspace] on the code points below 128: TAB, LF, VT, FF, CR,
    FS, GS, RS, US and the space. *)
Definition is_space (c : ascii) : bool :=
  let n := nat_of_ascii c in
  ((9 <=? n) && (n <=? 13)) || ((28 <=? n) && (n <=? 32)).

Fixpoint lstrip (s : str) : str :=
  match s with
  | [] => []
  | c :: s' => if is_space c then lstrip s' else s
  end.

Definition rstrip (s : str) : str := rev (lstrip (rev s)).

(** [s.strip()] *)
Definition strip (s : str) : str := rstrip (lstrip s).

(** Bound of a slice: a negative index counts from the end, and the
    result is clamped to [0 .. len]. *)
Definition norm_index (len : nat) (i : Z) : nat :=
  Z.to_nat (Z.min (Z.of_nat len)
                  (Z.max 0 (if (i <? 0)%Z then (i + Z.of_nat len)%Z else i))).

(** [s[start:stop]]; [None] is an omitted bound. *)
Definition slice (s : str) (start stop : option Z) : str :=
  let len := length s in
  let lo := match start with None => 0 | Some i => norm_index len i end in
  let hi := match stop with None => len | Some j => norm_index len j end in
  firstn (hi - lo) (skipn lo s).

(** [s.startswith(p)] *)
Fixpoint starts_with (p s : str) : bool :=
  match p, s with
  | [], _ => true
  | _ :: _, [] => false
  | a :: p', b :: s' => Ascii.eqb a b && starts_with p' s'
  end.

(** [sub in s] *)
Fixpoint occurs (sub s : str) : bool :=
  starts_with sub s ||
  match s with
  | [] => false
  | _ :: s' => occurs sub s'
  end.

(** [s.count(c)] for a one-character [c]. *)
Fixpoint count (c : ascii) (s : str) : nat :=
  match s with
  | [] => 0
  | a :: s' => (if Ascii.eqb a c then 1 else 0) + count c s'
  end.

(** [s.index(c)] for a one-character [c]: the first position of [c].
    [None] when [c] is absent, where Python raises [ValueError]; the
    source asks [c in s] before every call. *)
Fixpoint index (c : ascii) (s : str) : option nat :=
  match s with
  | [] => None
  | a :: s' => if Ascii.eqb a c then Some 0 else option_map S (index c s')
  end.

(** Left-to-right replacement of the non-overlapping occurrences of a
    non-empty [old]; [skip] counts the characters of a match still to
    be dropped. *)
Fixpoint replace_from (old new : str) (skip : nat) (s : str) : str :=
  match s with
  | [] => []
  | c :: s' =>
      match skip with
      | S k => replace_from old new k s'
      | O =>
          if starts_with old s
          then new ++ replace_from old new (length old - 1) s'
          else c :: replace_from old new 0 s'
      end
  end.

(** [s.replace(old, new)].  With an empty [old] Python puts [new]
    before every character and at the end. *)
Definition replace (old new s : str) : str :=
  match old with
  | [] => new ++ flat_map (fun c => c :: new) s
  | _ :: _ => replace_from old new 0 s
  end.

Definition upper_char (c : ascii) : ascii :=
  let n := nat_of_ascii c in
  if (97 <=? n) && (n <=? 122) then ascii_of_nat (n - 32) else c.

(** [s.upper()] *)
Definition upper (s : str) : str := map upper_char s.

End PyStr.
Export PyStr.

Coercion lit : string >-> str.

Local Open Scope string_scope.
Local Open Scope list_scope.

(* ================================================================= *)
(** ** Exceptions *)

Inductive exn : Type :=
| TypeError   (* indexing a string with [None] *)
| KeyError    (* a dictionary has no such key *)
| IndexError  (* string index out of range *)
| OutOfBudget (* [RecursionError]: more nested calls than allowed *).

Inductive result (A : Type) : Type :=
| Ok (a : A)
| Raise (e : exn).

Arguments Ok {A} a.
Arguments Raise {A} e.

Definition bind {A B : Type} (m : result A) (k : A -> result B) : result B :=
  match m with
  | Ok a => k a
  | Raise e => Raise e
  end.

Notation "x <- m ;; k" := (bind m (fun x => k))
  (at level 61, m at next level, right associativity).

(** Monadic left fold: the body of a [for] loop run over [xs]. *)
Fixpoint for_each {A S : Type} (body : S -> A -> result S)
         (xs : list A) (st : S) : result S :=
  match xs with
  | [] => Ok st
  | x :: xs' => st' <- body st x ;; for_each body xs' st'
  end.

(* ================================================================= *)
(** ** The expression tree *)

(** [class Node]: a value and two optional children. *)
#[warnings="-register-all"]
Inductive Node : Type :=
  mkNode { value : str; left : option Node; right : option Node }.

(** [Node(value)]: both children are [None]. *)
Definition new_node (v : str) : Node := mkNode v None None.

(** An f-string renders a [None] result as the text [None]. *)
Definition fmt (o : option str) : str :=
  match o with Some s => s | None => lit "None" end.

(** [inorder]: the SQL body. *)
Fixpoint inorder (node : Node) : str :=
  match node with
  | mkNode v (Some l) r =>
      lit "(" ++ inorder l ++ lit " " ++ v ++ lit " "
        ++ fmt (option_map inorder r) ++ lit ")"
  | mkNode v None _ => lit " text like '%" ++ v ++ lit "%'"
  end.

(** [inorder_orm]: the ORM body. *)
Fixpoint inorder_orm (node : Node) : str :=
  match node with
  | mkNode v (Some l) r =>
      lit "Q(" ++ inorder_orm l ++ lit ") " ++ v ++ lit " Q("
        ++ fmt (option_map inorder_orm r) ++ lit ")"
  | mkNode v None _ => lit "text__icontains='" ++ v ++ lit "'"
  end.

(** The double quote, as a one-character string. *)
Definition dq : str := [ascii_of_nat 34].

(** [preorder]: the MongoDB body. *)
Fixpoint preorder (node : Node) : str :=
  match node with
  | mkNode v (Some l) r =>
      lit " $" ++ v ++ lit " : [" ++ preorder l ++ lit ", "
        ++ fmt (option_map preorder r) ++ lit "]"
  | mkNode v None _ =>
      lit "{" ++ dq ++ lit "text" ++ dq ++ lit " : /.*" ++ v ++ lit ".*/i}"
  end.

(** [preorder_elasticsearch]: the ElasticSearch body. *)
Fixpoint preorder_elasticsearch (node : Node) : str :=
  match node with
  | mkNode v (Some l) r =>
      (lit " { " ++ dq ++ lit "bool" ++ dq ++ lit " : {")
        ++ (lit " " ++ v ++ lit " : [" ++ preorder_elasticsearch l ++ lit ", "
              ++ fmt (option_map preorder_elasticsearch r) ++ lit "]")
        ++ lit "} }"
  | mkNode v None _ =>
      (lit "{" ++ dq ++ lit "match" ++ dq ++ lit " : { " ++ dq ++ lit "text"
         ++ dq ++ lit " : {")
        ++ dq ++ v ++ dq ++ lit "} } "
  end.

(* ================================================================= *)
(** ** Module state *)

(** A dictionary with string keys, in insertion order. *)
Definition dict := list (str * str).

Fixpoint lookup (k : str) (d : dict) : option str :=
  match d with
  | [] => None
  | (k', v) :: d' => if str_eqb k k' then Some v else lookup k d'
  end.

(** [d.keys()] *)
Definition keys (d : dict) : list str := map fst d.

(** [k in ks] *)
Definition mem (k : str) (ks : list str) : bool := existsb (str_eqb k) ks.

(** [d[k]] *)
Definition getitem (d : dict) (k : str) : result str :=
  match lookup k d with
  | Some v => Ok v
  | None => Raise KeyError
  end.

(** What a call can read or write besides its arguments: the two
    module-level dictionaries and the lines printed so far. *)
Record World : Type := mkWorld {
  BASE_QUERIES : dict;
  END_QUERIES : dict;
  stdout : list str
}.

(** The dictionaries as the module defines them. *)
Definition base_queries : dict :=
  [ (lit "SQL", lit "SELECT * FROM Resume WHERE ");
    (lit "MONGODB", lit "{");
    (lit "ORM", lit "");
    (lit "ELASTICSEARCH", lit " " ++ dq ++ lit "query" ++ dq ++ lit ": ") ].

Definition end_queries : dict :=
  [ (lit "SQL", lit "");
    (lit "MONGODB", lit "}");
    (lit "ORM", lit "");
    (lit "ELASTICSEARCH", lit "") ].

(** The state of the loaded module, with [out] on the console. *)
Definition module_world (out : list str) : World :=
  mkWorld base_queries end_queries out.

(** [print(line)] *)
Definition print (line : str) (w : World) : World :=
  mkWorld (BASE_QUERIES w) (END_QUERIES w) (stdout w ++ [line]).

(* ================================================================= *)
(** ** The dispatcher *)

(** [create_query]: reads the two dictionaries, writes nothing. *)
Definition create_query (w : World) (root : Node) (query_type : str)
  : result str :=
  let temp_query :=
    if str_eqb query_type (lit "ORM") then
      replace (lit "&") (lit ",") (inorder_orm root)
    else if str_eqb query_type (lit "ELASTICSEARCH") then
      replace (lit "&") (dq ++ lit "MUST" ++ dq)
        (replace (lit "|") (dq ++ lit "SHOULD" ++ dq)
           (preorder_elasticsearch root))
    else if str_eqb query_type (lit "SQL") then
      replace (lit "&") (lit "AND")
        (replace (lit "|") (lit "OR")
           (slice (inorder root) (Some 1%Z) (Some (-1)%Z)))
    else if str_eqb query_type (lit "MONGODB") then
      replace (lit "&") (lit "AND")
        (replace (lit "|") (lit "OR") (preorder root))
    else lit "" in
  prefix <- getitem (BASE_QUERIES w) query_type ;;
  suffix <- getitem (END_QUERIES w) query_type ;;
  Ok (prefix ++ temp_query ++ suffix).

(* ================================================================= *)
(** ** The tree builder *)

(** [exp[i]] for a non-negative [i]. *)
Definition char_at (exp : str) (i : nat) : result ascii :=
  match nth_error exp i with
  | Some c => Ok c
  | None => Raise IndexError
  end.

(** [generate_node]: splits at the first [|], or else at the first [&];
    with neither, [idx] stays [None] and the indexing raises. *)
Definition generate_node (exp : str) : result Node :=
  let idx :=
    if occurs (lit "|") exp then index "|"%char exp
    else if occurs (lit "&") exp then index "&"%char exp
    else None in
  match idx with
  | None => Raise TypeError
  | Some idx =>
      c <- char_at exp idx ;;
      let lnode := new_node (strip (slice exp None (Some (Z.of_nat idx)))) in
      let rnode := new_node (strip (slice exp (Some (Z.of_nat idx + 1)%Z) None)) in
      Ok (mkNode (strip [c]) (Some lnode) (Some rnode))
  end.

(** [c in ['|', '&']] *)
Definition is_op (c : ascii) : bool :=
  Ascii.eqb c "|"%char || Ascii.eqb c "&"%char.

(** The variables of the scanning loop: [lopen] and [node].  The flag
    of the source is set exactly where [node] is assigned, so
    [flag == 1] is [node] being [Some]. *)
Definition scan_state : Type := (Z * option Node)%type.

(** One iteration of [for i in range(len(exp))]; [rec] is the
    recursive call. *)
Definition scan_step (rec : str -> result Node) (exp : str)
           (st : scan_state) (i : nat) : result scan_state :=
  let '(lopen, node) := st in
  c <- char_at exp i ;;
  if Ascii.eqb c "("%char then Ok ((lopen + 1)%Z, node)
  else if Ascii.eqb c ")"%char then Ok ((lopen - 1)%Z, node)
  else if is_op c && (lopen =? 0)%Z then
    lnode <- rec (strip (slice exp None (Some (Z.of_nat i)))) ;;
    rnode <- rec (strip (slice exp (Some (Z.of_nat i + 1)%Z) None)) ;;
    Ok (lopen, Some (mkNode [c] (Some lnode) (Some rnode)))
  else Ok st.

(** [create_exp_tree] when the interpreter allows [budget] nested calls
    of it; one more raises [RecursionError]. *)
Fixpoint create_exp_tree_within (budget : nat) (exp : str) : result Node :=
  match budget with
  | O => Raise OutOfBudget
  | S budget' =>
      if negb (occurs (lit "|") exp) && negb (occurs (lit "&") exp) then
        Ok (new_node exp)
      else if (count "("%char exp <? 1)%nat
                && str_eqb (slice exp (Some (-1)%Z) None) (lit ")") then
        generate_node (replace (lit ")") (lit "") (replace (lit "(") (lit "") exp))
      else
        st <- for_each (scan_step (create_exp_tree_within budget') exp)
                       (seq 0 (length exp)) (0%Z, None) ;;
        match snd st with
        | Some node => Ok node
        | None =>
            create_exp_tree_within budget' (slice exp (Some 1%Z) (Some (-1)%Z))
        end
  end.

(** [create_exp_tree]: every recursive call is on a shorter string, so
    the length of [exp] bounds the depth. *)
Definition create_exp_tree (exp : str) : result Node :=
  create_exp_tree_within (S (length exp)) exp.

(* ================================================================= *)
(** ** The entry point *)

(** [value_dict], in insertion order. *)
Definition value_dict : dict :=
  [ (lit "(", lit " ( ");
    (lit ")", lit " ) ");
    (lit " OR ", lit "|");
    (lit " or ", lit "|");
    (lit " AND ", lit "&");
    (lit " and ", lit "&");
    (dq, lit "") ].

(** [for key, value in d.items(): exp = exp.replace(key, value)] *)
Definition replace_items (d : dict) (exp : str) : str :=
  fold_left (fun e kv => replace (fst kv) (snd kv) e) d exp.

Definition invalid_request : str :=
  lit "Invalid query type request. SQL, MONGODB, and ORM are only currently accepted query types".

(** [generate_query]: the result and the world it leaves. *)
Definition generate_query (exp query_type : str) (w : World)
  : result str * World :=
  let query_type := upper query_type in
  if negb (mem query_type (keys (BASE_QUERIES w))) then
    (Ok invalid_request, w)
  else
    let exp := replace_items value_dict exp in
    match create_exp_tree exp with
    | Raise e => (Raise e, w)
    | Ok root =>
        match create_query w root query_type with
        | Raise e => (Raise e, w)
        | Ok raw_query => (Ok raw_query, print raw_query w)
        end
    end.

(* ================================================================= *)
(** * Vocabulary of the properties *)

(** ** Shape of a tree *)

(** Some operator character occurs in [exp]. *)
Definition has_op (exp : str) : bool :=
  occurs (lit "|") exp || occurs (lit "&") exp.

(** A leaf, or an operator node: both children present, the value
    one of the two operator symbols, and both subtrees of that kind. *)
Fixpoint well_formed (t : Node) : bool :=
  match t with
  | mkNode _ None None => true
  | mkNode v (Some l) (Some r) =>
      (str_eqb v (lit "|") || str_eqb v (lit "&"))
        && well_formed l && well_formed r
  | mkNode _ _ _ => false
  end.

(** Every node of a tree, the root first. *)
Fixpoint nodes (t : Node) : list Node :=
  match t with
  | mkNode _ l r =>
      t :: match l with Some l' => nodes l' | None => [] end
        ++ match r with Some r' => nodes r' | None => [] end
  end.

(** Both children present, or both absent. *)
Definition paired (n : Node) : Prop :=
  (left n = None /\ right n = None) \/
  (exists l r, left n = Some l /\ right n = Some r
               /\ well_formed l = true /\ well_formed r = true).

(** Every leaf holds text without an operator character. *)
Fixpoint plain_leaves (t : Node) : bool :=
  match t with
  | mkNode v None _ => negb (has_op v)
  | mkNode _ (Some l) r =>
      plain_leaves l
        && match r with Some r' => plain_leaves r' | None => true end
  end.

(** ** Operators, parentheses and chains *)


(** What one character adds to [lopen]. *)
Definition delta (c : ascii) : Z :=
  if Ascii.eqb c "("%char then 1%Z
  else if Ascii.eqb c ")"%char then (-1)%Z else 0%Z.

(** What scanning [s] adds to [lopen]. *)
Fixpoint depth (s : str) : Z :=
  match s with
  | [] => 0%Z
  | c :: s' => (delta c + depth s')%Z
  end.

(** No parenthesis at all. *)
Definition flat (s : str) : bool :=
  negb (occurs (lit "(") s) && negb (occurs (lit ")") s).

(** Parentheses balanced: none closed before it was opened, none left
    open. *)
Fixpoint balanced_from (opened : nat) (s : str) : bool :=
  match s with
  | [] => (opened =? 0)%nat
  | c :: s' =>
      if Ascii.eqb c "("%char then balanced_from (S opened) s'
      else if Ascii.eqb c ")"%char then
        match opened with
        | O => false
        | S k => balanced_from k s'
        end
      else balanced_from opened s'
  end.

Definition balanced (s : str) : bool := balanced_from 0 s.

(** Operand text: no operator and no parenthesis. *)
Definition operand (a : str) : bool := flat a && negb (has_op a).

(** An operator followed by an operand. *)
Definition link (p : ascii * str) : bool := is_op (fst p) && operand (snd p).

(** The text [first op1 a1 op2 a2 ...]. *)
Definition chain (first : str) (rest : list (ascii * str)) : str :=
  first ++ flat_map (fun p => fst p :: snd p) rest.

(** Left-associative grouping of a chain: the first two operands are
    combined first, and every further operand is combined with the tree
    so far. *)
Definition left_assoc (first : str) (rest : list (ascii * str)) : Node :=
  fold_left
    (fun t p => mkNode [fst p] (Some t) (Some (new_node (strip (snd p)))))
    rest (new_node (strip first)).

(** ** The loop invariant *)

(** The state of the loop holds no tree, or a well-formed one. *)
Definition scan_inv (st : scan_state) : Prop :=
  match snd st with
  | Some node => well_formed node = true
  | None => True
  end.

(** ** Normalisation *)

Definition dq_char : ascii := ascii_of_nat 34.

(** The first two replacements of [value_dict]: a space on each side of
    every parenthesis. *)
Definition pad_parens (exp : str) : str :=
  replace (lit ")") (lit " ) ") (replace (lit "(") (lit " ( ") exp).

(** The four keys of [value_dict] that turn into an operator. *)
Definition keyword_forms : list str :=
  [lit " OR "; lit " or "; lit " AND "; lit " and "].

(** None of the four forms occurs in [s]. *)
Definition keyword_free (s : str) : bool :=
  forallb (fun k => negb (occurs k s)) keyword_forms.

(** ** The relational form *)

(** The SQL keyword of an operator symbol. *)
Definition sql_keyword (v : str) : str :=
  if str_eqb v (lit "|") then lit "OR"
  else if str_eqb v (lit "&") then lit "AND" else v.

(** The relational form of a tree, in the words of the specification:
    an operator node is [(<left> <OP> <right>)], a leaf is a [like]
    predicate on [text]. *)
Fixpoint sql_form (t : Node) : str :=
  match t with
  | mkNode v (Some l) (Some r) =>
      lit "(" ++ sql_form l ++ lit " " ++ sql_keyword v ++ lit " "
        ++ sql_form r ++ lit ")"
  | mkNode v _ _ => lit " text like '%" ++ v ++ lit "%'"
  end.

(** The two replacements that [create_query] applies for SQL. *)
Definition sql_keywords (s : str) : str :=
  replace (lit "&") (lit "AND") (replace (lit "|") (lit "OR") s).

(** ** Calls and their state *)

(** The two dictionaries of a world. *)
Definition globals (w : World) : dict * dict :=
  (BASE_QUERIES w, END_QUERIES w).

(** A sequence of calls, each given by its two arguments. *)
Definition run (calls : list (str * str)) (w : World) : World :=
  fold_left (fun w' c => snd (generate_query (fst c) (snd c) w')) calls w.

(** [text] with every backquote read as a double quote: a way to write
    down output that holds double quotes. *)
Definition quoted (text : string) : str :=
  map (fun c => if Ascii.eqb c "`"%char then ascii_of_nat 34 else c) (lit text).

(** The expression of the module's own example. *)
Definition example : str := lit "(Java AND Spring) OR (Python AND Django)".

(** The two input variables at the end of the module, and the state
    that the call in its last line leaves when the module is loaded. *)
Definition command : str := lit "(Java AND Spring) OR (Python AND Django) ".

Definition query_type_req : str := lit "SQL".

Definition loaded : World :=
  snd (generate_query command query_type_req (module_world [])).

(** ** Further vocabulary *)

(** The flag of the loop: scanning [s] from [lopen], some operator is
    met while [lopen] is 0. *)
Fixpoint has_top_op (lopen : Z) (s : str) : bool :=
  match s with
  | [] => false
  | c :: s' =>
      if Ascii.eqb c "("%char then has_top_op (lopen + 1)%Z s'
      else if Ascii.eqb c ")"%char then has_top_op (lopen - 1)%Z s'
      else (is_op c && (lopen =? 0)%Z) || has_top_op lopen s'
  end.

(** Whitespace only. *)
Definition blank (w : str) : bool := forallb is_space w.

(** A word: no space, parenthesis, double quote or operator character. *)
Definition word_char (c : ascii) : bool :=
  negb (Ascii.eqb c " "%char || Ascii.eqb c "("%char || Ascii.eqb c ")"%char
        || Ascii.eqb c dq_char || is_op c).

Definition word (a : str) : bool := forallb word_char a.

(** The keywords of [value_dict] with the symbol each one becomes. *)
Definition keywords : list (str * ascii) :=
  [ (lit "OR", "|"%char); (lit "or", "|"%char);
    (lit "AND", "&"%char); (lit "and", "&"%char) ].

(** Every character of every value of the tree is a character of
    [exp]. *)
Definition drawn_from (exp : str) (t : Node) : Prop :=
  forall n, In n (nodes t) -> incl (value n) exp.

(** The tree with [f] applied to the value of every node that has a
    left child. *)
Fixpoint rename (f : str -> str) (t : Node) : Node :=
  match t with
  | mkNode v (Some l) r =>
      mkNode (f v) (Some (rename f l)) (option_map (rename f) r)
  | mkNode _ None _ => t
  end.

(** What the replacements of [create_query] make of an operator symbol,
    for ORM and for ElasticSearch; SQL and MongoDB share [sql_keyword]. *)
Definition orm_symbol (v : str) : str :=
  if str_eqb v (lit "&") then lit "," else v.

Definition es_keyword (v : str) : str :=
  if str_eqb v (lit "|") then dq ++ lit "SHOULD" ++ dq
  else if str_eqb v (lit "&") then dq ++ lit "MUST" ++ dq else v.

(** A parenthesised group with whitespace around it. *)
Definition group (before inner after : str) : str :=
  before ++ "("%char :: inner ++ ")"%char :: after.

(** The replacements that [create_query] applies for ORM and for
    ElasticSearch. *)
Definition orm_commas (s : str) : str := replace (lit "&") (lit ",") s.

Definition es_keywords (s : str) : str :=
  replace (lit "&") (dq ++ lit "MUST" ++ dq)
    (replace (lit "|") (dq ++ lit "SHOULD" ++ dq) s).

(** The tree of [Java AND Spring OR Python]. *)
Definition sample_tree : Node :=
  mkNode (lit "|")
    (Some (mkNode (lit "&") (Some (new_node (lit "Java")))
                  (Some (new_node (lit "Spring")))))
    (Some (new_node (lit "Python"))).

(** What one call leaves on the console: the query it returns, when it
    returns one for a type that is a key of [BASE_QUERIES]. *)
Definition printed (w : World) (c : str * str) : list str :=
  match fst (generate_query (fst c) (snd c) w) with
  | Ok q => if mem (upper (snd c)) (keys (BASE_QUERIES w)) then [q] else []
  | Raise _ => []
  end.

(** [recognised p q]: [q] is [p] read from left to right with every
    character kept as it is, but for some places where a space, one of
    the four keywords and a space stand and the symbol of the keyword
    is put for the three. *)
Inductive recognised : str -> str -> Prop :=
| recognised_nil : recognised [] []
| recognised_keep (c : ascii) (p q : str) :
    recognised p q -> recognised (c :: p) (c :: q)
| recognised_keyword (kw : str) (op : ascii) (p q : str) :
    In (kw, op) keywords -> recognised p q ->
    recognised (" "%char :: kw ++ " "%char :: p) (op :: q).

(** [s] without its double quotes. *)
Definition unquoted (s : str) : str :=
  filter (fun c => negb (Ascii.eqb c dq_char)) s.

(** Operand text that may hold spaces: no parenthesis, operator or
    double quote, and none of the four forms even after a space. *)
Definition free_text (b : str) : bool :=
  flat b && negb (has_op b) && negb (occurs dq b)
  && keyword_free (" "%char :: b).

(* ================================================================= *)
(** * Proofs *)

(* ================================================================= *)
(** ** Facts about the string operations *)

Section StringFacts.

Lemma str_eqb_eq (a b : str) : str_eqb a b = true <-> a = b.
Proof.
  unfold str_eqb. destruct (list_eq_dec ascii_dec a b); split; congruence.
Qed.

Lemma str_eqb_refl (a : str) : str_eqb a a = true.
Proof. apply str_eqb_eq. reflexivity. Qed.

Lemma length_lstrip (s : str) : length (lstrip s) <= length s.
Proof.
  induction s as [|c s IH]; simpl; [lia|].
  destruct (is_space c); simpl; lia.
Qed.

Lemma length_strip (s : str) : length (strip s) <= length s.
Proof.
  unfold strip, rstrip. rewrite length_rev.
  etransitivity; [apply length_lstrip|]. rewrite length_rev.
  apply length_lstrip.
Qed.

(** [exp[:i]] *)
Lemma slice_to (s : str) (i : nat) :
  slice s None (Some (Z.of_nat i)) = firstn i s.
Proof.
  unfold slice, norm_index.
  destruct (Z.ltb_spec (Z.of_nat i) 0) as [E|E]; [lia|].
  rewrite Nat.sub_0_r. simpl skipn.
  destruct (le_lt_dec i (length s)) as [H|H].
  - f_equal. lia.
  - replace (Z.to_nat _) with (length s) by lia.
    rewrite !firstn_all2; auto; lia.
Qed.

(** [exp[i + 1:]] *)
Lemma slice_from (s : str) (i : nat) :
  slice s (Some (Z.of_nat i + 1)%Z) None = skipn (S i) s.
Proof.
  unfold slice, norm_index.
  destruct (Z.ltb_spec (Z.of_nat i + 1) 0) as [E|E]; [lia|].
  destruct (le_lt_dec (S i) (length s)) as [H|H].
  - replace (Z.to_nat _) with (S i) by lia.
    apply firstn_all2. rewrite length_skipn. lia.
  - replace (Z.to_nat _) with (length s) by lia.
    rewrite Nat.sub_diag, firstn_O.
    symmetry. apply skipn_all2. lia.
Qed.

(** [exp[1:-1]] is shorter than a non-empty [exp]. *)
Lemma length_slice_inner (s : str) :
  s <> [] -> length (slice s (Some 1%Z) (Some (-1)%Z)) < length s.
Proof.
  intros Hs. unfold slice. rewrite length_firstn, length_skipn.
  destruct s as [|a s]; [congruence|]. cbn [length]. unfold norm_index.
  destruct (Z.ltb_spec 1 0) as [E|E]; [lia|].
  destruct (Z.ltb_spec (-1) 0) as [F|F]; lia.
Qed.

(** [exp[-1:]] is the last character, if there is one. *)
Lemma slice_last (s : str) (c : ascii) :
  slice (s ++ [c]) (Some (-1)%Z) None = [c].
Proof.
  unfold slice, norm_index. rewrite length_app. cbn [length].
  destruct (Z.ltb_spec (-1) 0) as [E|E]; [|lia].
  replace (Z.to_nat _) with (length s) by lia.
  rewrite skipn_app, Nat.sub_diag, skipn_all. simpl.
  replace (length s + 1 - length s) with 1 by lia. reflexivity.
Qed.

Lemma occurs_char (c : ascii) (s : str) :
  occurs [c] s = existsb (Ascii.eqb c) s.
Proof.
  induction s as [|a s IH]; simpl; [reflexivity|].
  rewrite andb_true_r. f_equal. exact IH.
Qed.

Lemma occurs_char_In (c : ascii) (s : str) :
  occurs [c] s = true <-> In c s.
Proof.
  rewrite occurs_char, existsb_exists. split.
  - intros (x & Hx & E). apply Ascii.eqb_eq in E. subst. exact Hx.
  - intros H. exists c. split; [exact H|apply Ascii.eqb_refl].
Qed.

Lemma occurs_char_false (c : ascii) (s : str) :
  occurs [c] s = false <-> ~ In c s.
Proof.
  rewrite <- occurs_char_In. destruct (occurs [c] s); split; congruence.
Qed.

(** Replacing a one-character [old] works character by character. *)
Lemma replace_char (p : ascii) (new s : str) :
  replace [p] new s = flat_map (fun c => if Ascii.eqb p c then new else [c]) s.
Proof.
  unfold replace. induction s as [|c s IH]; simpl; [reflexivity|].
  rewrite andb_true_r. destruct (Ascii.eqb p c); simpl; rewrite IH; reflexivity.
Qed.

Lemma replace_char_app (p : ascii) (new a b : str) :
  replace [p] new (a ++ b) = replace [p] new a ++ replace [p] new b.
Proof. rewrite !replace_char. apply flat_map_app. Qed.

Lemma In_replace_char (p c : ascii) (new s : str) :
  In c (replace [p] new s) <-> (In c s /\ c <> p) \/ (In p s /\ In c new).
Proof.
  rewrite replace_char, in_flat_map. split.
  - intros (x & Hx & Hc). destruct (Ascii.eqb p x) eqn:E.
    + apply Ascii.eqb_eq in E. subst. right. split; assumption.
    + apply Ascii.eqb_neq in E. destruct Hc as [->|[]]. left. split; congruence.
  - intros [[H N]|[H N]].
    + exists c. split; [exact H|].
      destruct (Ascii.eqb p c) eqn:E; [apply Ascii.eqb_eq in E; congruence|].
      left; reflexivity.
    + exists p. split; [exact H|]. rewrite Ascii.eqb_refl. exact N.
Qed.

(** A string in which [old] does not occur is left as it is. *)
Lemma replace_absent (old new s : str) :
  old <> [] -> occurs old s = false -> replace old new s = s.
Proof.
  intros Hold. destruct old as [|o old]; [congruence|]. unfold replace.
  induction s as [|c s IH]; intros H; [reflexivity|].
  cbn [occurs] in H. apply orb_false_iff in H. destruct H as [H1 H2].
  cbn [replace_from]. rewrite H1. f_equal. apply IH. exact H2.
Qed.

Lemma index_In (c : ascii) (s : str) :
  In c s -> exists i, index c s = Some i /\ nth_error s i = Some c.
Proof.
  induction s as [|a s IH]; simpl; [tauto|]. intros H.
  destruct (Ascii.eqb a c) eqn:E.
  - apply Ascii.eqb_eq in E. subst. exists 0. split; reflexivity.
  - destruct H as [H|H]; [subst; rewrite Ascii.eqb_refl in E; discriminate|].
    destruct (IH H) as (i & Hi & Hn). exists (S i). rewrite Hi. split; auto.
Qed.

End StringFacts.

(* ================================================================= *)
(** ** Shape of a tree *)

Lemma well_formed_paired (t : Node) :
  well_formed t = true -> forall n, In n (nodes t) -> paired n.
Proof.
  revert t. fix IH 1. intros [v [l|] [r|]] H n Hn; cbn in H; try discriminate.
  - apply andb_true_iff in H. destruct H as [H Hr].
    apply andb_true_iff in H. destruct H as [_ Hl].
    cbn [nodes] in Hn. destruct Hn as [<-|Hn].
    + right. exists l, r. cbn. auto.
    + apply in_app_or in Hn. destruct Hn as [Hn|Hn].
      * exact (IH l Hl n Hn).
      * exact (IH r Hr n Hn).
  - cbn in Hn. destruct Hn as [<-|[]]. left. cbn. auto.
Qed.

(* ================================================================= *)
(** ** The builder returns when the allowed depth exceeds the length *)

Lemma has_op_In (exp : str) :
  has_op exp = true <-> exists c, In c exp /\ is_op c = true.
Proof.
  unfold has_op, is_op. rewrite orb_true_iff.
  change (lit "|") with ["|"%char]. change (lit "&") with ["&"%char].
  rewrite !occurs_char_In. split.
  - intros [H|H]; eexists; (split; [exact H|reflexivity]).
  - intros (c & Hc & E). apply orb_true_iff in E.
    destruct E as [E|E]; apply Ascii.eqb_eq in E; subst; auto.
Qed.

Lemma has_op_nonempty (exp : str) : has_op exp = true -> exp <> [].
Proof.
  intros H. apply has_op_In in H. destruct H as (c & Hc & _).
  intros ->. exact Hc.
Qed.

Lemma first_test (exp : str) :
  negb (occurs (lit "|") exp) && negb (occurs (lit "&") exp)
  = negb (has_op exp).
Proof. unfold has_op. rewrite negb_orb. reflexivity. Qed.

Lemma generate_node_ok (exp : str) :
  has_op exp = true ->
  exists t, generate_node exp = Ok t /\ well_formed t = true.
Proof.
  unfold has_op, generate_node. intros H.
  change (lit "|") with ["|"%char] in *. change (lit "&") with ["&"%char] in *.
  destruct (occurs ["|"%char] exp) eqn:E1.
  - apply occurs_char_In, index_In in E1. destruct E1 as (i & -> & Hn).
    unfold char_at. rewrite Hn. cbn. eexists. split; reflexivity.
  - cbn in H. rewrite H.
    apply occurs_char_In, index_In in H. destruct H as (i & -> & Hn).
    unfold char_at. rewrite Hn. cbn. eexists. split; reflexivity.
Qed.

(** Deleting the parentheses keeps the operators. *)
Lemma has_op_unparen (exp : str) :
  has_op exp = true ->
  has_op (replace (lit ")") (lit "") (replace (lit "(") (lit "") exp)) = true.
Proof.
  rewrite !has_op_In. intros (c & Hc & E). exists c. split; [|exact E].
  change (lit ")") with [")"%char]. change (lit "(") with ["("%char].
  apply In_replace_char. left. split.
  - apply In_replace_char. left. split; [exact Hc|].
    intros ->. discriminate.
  - intros ->. discriminate.
Qed.

Lemma length_left_part (exp : str) (i : nat) :
  i < length exp ->
  length (strip (slice exp None (Some (Z.of_nat i)))) < length exp.
Proof.
  intros H. rewrite slice_to.
  eapply Nat.le_lt_trans; [apply length_strip|].
  rewrite length_firstn. lia.
Qed.

Lemma length_right_part (exp : str) (i : nat) :
  i < length exp ->
  length (strip (slice exp (Some (Z.of_nat i + 1)%Z) None)) < length exp.
Proof.
  intros H. rewrite slice_from.
  eapply Nat.le_lt_trans; [apply length_strip|].
  rewrite length_skipn. lia.
Qed.

Lemma char_at_Some (exp : str) (i : nat) (c : ascii) :
  char_at exp i = Ok c -> nth_error exp i = Some c /\ i < length exp.
Proof.
  unfold char_at. destruct (nth_error exp i) eqn:E; [|discriminate].
  intros [= ->]. split; [reflexivity|].
  apply nth_error_Some. congruence.
Qed.

Lemma char_at_range (exp : str) (i : nat) :
  i < length exp -> exists c, char_at exp i = Ok c.
Proof.
  intros H. unfold char_at. destruct (nth_error exp i) eqn:E; eauto.
  apply nth_error_None in E. lia.
Qed.

Section Loop.

Variable rec : str -> result Node.
Variable exp : str.
Hypothesis rec_ok :
  forall s, length s < length exp ->
            exists t, rec s = Ok t /\ well_formed t = true.

Lemma scan_step_ok (st : scan_state) (i : nat) :
  i < length exp -> scan_inv st ->
  exists st', scan_step rec exp st i = Ok st' /\ scan_inv st'.
Proof.
  intros Hi Hst. destruct st as [lopen node]. unfold scan_step.
  destruct (char_at_range exp i Hi) as (c & ->). cbn [bind].
  destruct (Ascii.eqb c "(") eqn:E1; [eexists; split; [reflexivity|exact Hst]|].
  destruct (Ascii.eqb c ")"); [eexists; split; [reflexivity|exact Hst]|].
  destruct (is_op c && (lopen =? 0)%Z) eqn:E3;
    [|eexists; split; [reflexivity|exact Hst]].
  destruct (rec_ok _ (length_left_part exp i Hi)) as (tl & -> & Hl).
  destruct (rec_ok _ (length_right_part exp i Hi)) as (tr & -> & Hr).
  cbn [bind]. eexists. split; [reflexivity|].
  unfold scan_inv. cbn [snd well_formed]. rewrite Hl, Hr.
  apply andb_true_iff in E3. destruct E3 as [E3 _].
  unfold is_op in E3. apply orb_true_iff in E3.
  destruct E3 as [E3|E3]; apply Ascii.eqb_eq in E3; subst; reflexivity.
Qed.

Lemma scan_ok (xs : list nat) (st : scan_state) :
  (forall i, In i xs -> i < length exp) -> scan_inv st ->
  exists st', for_each (scan_step rec exp) xs st = Ok st' /\ scan_inv st'.
Proof.
  revert st. induction xs as [|i xs IH]; intros st Hxs Hst.
  - exists st. split; [reflexivity|exact Hst].
  - destruct (scan_step_ok st i (Hxs i (or_introl eq_refl)) Hst)
      as (st1 & E & H1).
    cbn [for_each]. rewrite E. cbn [bind].
    apply IH; [|exact H1]. intros j Hj. apply Hxs. right. exact Hj.
Qed.

End Loop.

Lemma in_range (n i : nat) : In i (seq 0 n) -> i < n.
Proof. intros H. apply in_seq in H. lia. Qed.

Lemma create_exp_tree_within_ok (budget : nat) :
  forall exp, length exp < budget ->
  exists t, create_exp_tree_within budget exp = Ok t /\ well_formed t = true.
Proof.
  induction budget as [|budget IH]; intros exp Hlen; [lia|].
  cbn [create_exp_tree_within]. rewrite first_test.
  destruct (has_op exp) eqn:Hop; cbn [negb].
  2:{ eexists. split; reflexivity. }
  destruct (_ && _).
  { apply generate_node_ok, has_op_unparen, Hop. }
  assert (Hrec : forall s, length s < length exp ->
            exists t, create_exp_tree_within budget s = Ok t
                      /\ well_formed t = true).
  { intros s Hs. apply IH. lia. }
  destruct (scan_ok _ exp Hrec (seq 0 (length exp)) (0%Z, None))
    as (st & -> & Hst).
  { apply in_range. }
  { exact I. }
  cbn [bind]. unfold scan_inv in Hst. destruct (snd st) as [node|].
  - exists node. split; [reflexivity|exact Hst].
  - apply Hrec. apply length_slice_inner, has_op_nonempty, Hop.
Qed.

(* ================================================================= *)
(** ** The budget does not show in the result *)

Lemma for_each_ext {A S : Type} (f g : S -> A -> result S) (xs : list A) :
  (forall st x, In x xs -> f st x = g st x) ->
  forall st, for_each f xs st = for_each g xs st.
Proof.
  induction xs as [|x xs IH]; intros H st; [reflexivity|].
  cbn [for_each]. rewrite (H st x (or_introl eq_refl)).
  destruct (g st x); cbn [bind]; [|reflexivity].
  apply IH. intros st' y Hy. apply H. right. exact Hy.
Qed.

Lemma for_each_app {A S : Type} (f : S -> A -> result S) (xs ys : list A) :
  forall st,
    for_each f (xs ++ ys) st = (st' <- for_each f xs st ;; for_each f ys st').
Proof.
  induction xs as [|x xs IH]; intros st; [reflexivity|].
  cbn [for_each app]. destruct (f st x); cbn [bind]; [apply IH|reflexivity].
Qed.

Lemma scan_step_ext (r1 r2 : str -> result Node) (exp : str) :
  (forall s, length s < length exp -> r1 s = r2 s) ->
  forall st i, scan_step r1 exp st i = scan_step r2 exp st i.
Proof.
  intros H [lopen node] i. unfold scan_step.
  destruct (char_at exp i) as [c|e] eqn:E; cbn [bind]; [|reflexivity].
  apply char_at_Some in E. destruct E as [_ Hi].
  destruct (Ascii.eqb c "("); [reflexivity|].
  destruct (Ascii.eqb c ")"); [reflexivity|].
  destruct (is_op c && (lopen =? 0)%Z); [|reflexivity].
  rewrite (H _ (length_left_part exp i Hi)), (H _ (length_right_part exp i Hi)).
  reflexivity.
Qed.

Lemma create_exp_tree_within_stable (b1 : nat) :
  forall b2 exp, length exp < b1 -> length exp < b2 ->
  create_exp_tree_within b1 exp = create_exp_tree_within b2 exp.
Proof.
  induction b1 as [|b1 IH]; intros b2 exp H1 H2; [lia|].
  destruct b2 as [|b2]; [lia|].
  cbn [create_exp_tree_within]. rewrite first_test.
  destruct (has_op exp) eqn:Hop; cbn [negb]; [|reflexivity].
  destruct (_ && _); [reflexivity|].
  assert (Hrec : forall s, length s < length exp ->
            create_exp_tree_within b1 s = create_exp_tree_within b2 s).
  { intros s Hs. apply IH; lia. }
  rewrite (for_each_ext _ _ _ (fun st x _ => scan_step_ext _ _ exp Hrec st x)).
  destruct (for_each _ _ _) as [st|e]; cbn [bind]; [|reflexivity].
  destruct (snd st); [reflexivity|].
  apply Hrec, length_slice_inner, has_op_nonempty, Hop.
Qed.

(** [create_exp_tree] as the source writes it: the recursive calls are
    calls of the function itself. *)
Lemma create_exp_tree_eq (exp : str) :
  create_exp_tree exp =
  if negb (occurs (lit "|") exp) && negb (occurs (lit "&") exp) then
    Ok (new_node exp)
  else if (count "("%char exp <? 1)%nat
            && str_eqb (slice exp (Some (-1)%Z) None) (lit ")") then
    generate_node (replace (lit ")") (lit "") (replace (lit "(") (lit "") exp))
  else
    st <- for_each (scan_step create_exp_tree exp)
                   (seq 0 (length exp)) (0%Z, None) ;;
    match snd st with
    | Some node => Ok node
    | None => create_exp_tree (slice exp (Some 1%Z) (Some (-1)%Z))
    end.
Proof.
  unfold create_exp_tree at 1. cbn [create_exp_tree_within].
  rewrite first_test.
  destruct (has_op exp) eqn:Hop; cbn [negb]; [|reflexivity].
  destruct (_ && _); [reflexivity|].
  assert (Hrec : forall s, length s < length exp ->
            create_exp_tree_within (length exp) s = create_exp_tree s).
  { intros s Hs. apply create_exp_tree_within_stable; lia. }
  rewrite (for_each_ext _ _ _ (fun st x _ => scan_step_ext _ _ exp Hrec st x)).
  destruct (for_each _ _ _) as [st|e]; cbn [bind]; [|reflexivity].
  destruct (snd st); [reflexivity|].
  apply Hrec, length_slice_inner, has_op_nonempty, Hop.
Qed.

(** More budget than the length of [exp] changes nothing. *)
Lemma create_exp_tree_budget (budget : nat) (exp : str) :
  length exp < budget ->
  create_exp_tree_within budget exp = create_exp_tree exp.
Proof.
  intros H. apply create_exp_tree_within_stable; [exact H|lia].
Qed.

Lemma create_exp_tree_ok (exp : str) :
  exists t, create_exp_tree exp = Ok t /\ well_formed t = true.
Proof. apply create_exp_tree_within_ok. lia. Qed.

Lemma create_exp_tree_leaf (exp : str) :
  has_op exp = false -> create_exp_tree exp = Ok (new_node exp).
Proof.
  intros H. unfold create_exp_tree. cbn [create_exp_tree_within].
  rewrite first_test, H. reflexivity.
Qed.

(* ================================================================= *)
(** ** The loop splits at the last operator met at depth 0 *)

Lemma has_op_cons (c : ascii) (s : str) :
  has_op (c :: s) = is_op c || has_op s.
Proof.
  unfold has_op, is_op. change (lit "|") with ["|"%char].
  change (lit "&") with ["&"%char]. rewrite !occurs_char. cbn [existsb].
  rewrite (Ascii.eqb_sym c "|"), (Ascii.eqb_sym c "&").
  destruct (Ascii.eqb "|" c), (Ascii.eqb "&" c),
    (existsb (Ascii.eqb "|") s), (existsb (Ascii.eqb "&") s); reflexivity.
Qed.

Lemma has_op_false_In (s : str) :
  has_op s = false <-> forall c, In c s -> is_op c = false.
Proof.
  split.
  - intros H c Hc. destruct (is_op c) eqn:E; [|reflexivity].
    rewrite <- H. symmetry. apply has_op_In. eauto.
  - intros H. destruct (has_op s) eqn:E; [|reflexivity].
    apply has_op_In in E. destruct E as (c & Hc & E).
    rewrite (H c Hc) in E. discriminate.
Qed.

Lemma flat_cons (c : ascii) (s : str) :
  flat (c :: s) = true -> delta c = 0%Z /\ flat s = true.
Proof.
  unfold flat, delta. change (lit "(") with ["("%char].
  change (lit ")") with [")"%char]. rewrite !occurs_char. cbn [existsb].
  rewrite (Ascii.eqb_sym c "("), (Ascii.eqb_sym c ")").
  destruct (Ascii.eqb "(" c), (Ascii.eqb ")" c); cbn;
    rewrite ?andb_false_r; try discriminate.
  auto.
Qed.

Lemma flat_depth (s : str) : flat s = true -> depth s = 0%Z.
Proof.
  induction s as [|c s IH]; intros H; [reflexivity|].
  apply flat_cons in H. destruct H as [H1 H2]. cbn [depth].
  rewrite H1, (IH H2). reflexivity.
Qed.

Lemma flat_In (s : str) (c : ascii) :
  flat s = true -> In c s -> c <> ")"%char.
Proof.
  unfold flat. intros H Hc ->. apply andb_true_iff in H. destruct H as [_ H].
  apply negb_true_iff in H. change (lit ")") with [")"%char] in H.
  apply occurs_char_false in H. exact (H Hc).
Qed.

Lemma is_op_delta (c : ascii) : is_op c = true -> delta c = 0%Z.
Proof.
  unfold is_op. intros H. apply orb_true_iff in H.
  destruct H as [H|H]; apply Ascii.eqb_eq in H; subst; reflexivity.
Qed.

Lemma nth_error_middle (a b : str) (c : ascii) :
  nth_error (a ++ c :: b) (length a) = Some c.
Proof. induction a as [|x a IH]; [reflexivity|exact IH]. Qed.

Lemma firstn_middle (a b : str) : firstn (length a) (a ++ b) = a.
Proof. induction a as [|x a IH]; cbn; [reflexivity|f_equal; exact IH]. Qed.

Lemma skipn_middle (a b : str) (c : ascii) :
  skipn (S (length a)) (a ++ c :: b) = b.
Proof. induction a as [|x a IH]; [reflexivity|exact IH]. Qed.

Lemma In_lstrip (c : ascii) (s : str) : In c (lstrip s) -> In c s.
Proof.
  induction s as [|a s IH]; cbn; [tauto|].
  destruct (is_space a); cbn; tauto.
Qed.

Lemma In_strip (c : ascii) (s : str) : In c (strip s) -> In c s.
Proof.
  unfold strip, rstrip. intros H.
  apply In_lstrip, (proj2 (in_rev _ _)), In_lstrip, (proj2 (in_rev _ _)).
  exact H.
Qed.

Lemma has_op_strip (s : str) : has_op s = false -> has_op (strip s) = false.
Proof.
  rewrite !has_op_false_In. intros H c Hc. apply H, In_strip, Hc.
Qed.

Section Scan.

Variable exp : str.

(** One step, once the character under the index is known. *)
Lemma scan_step_at (lopen : Z) (node : option Node) (a b : str) (c : ascii) :
  exp = a ++ c :: b ->
  scan_step create_exp_tree exp (lopen, node) (length a) =
  if Ascii.eqb c "("%char then Ok ((lopen + 1)%Z, node)
  else if Ascii.eqb c ")"%char then Ok ((lopen - 1)%Z, node)
  else if is_op c && (lopen =? 0)%Z then
    lnode <- create_exp_tree (strip a) ;;
    rnode <- create_exp_tree (strip b) ;;
    Ok (lopen, Some (mkNode [c] (Some lnode) (Some rnode)))
  else Ok (lopen, node).
Proof.
  intros ->. unfold scan_step, char_at.
  rewrite nth_error_middle, slice_to, slice_from, firstn_middle, skipn_middle.
  reflexivity.
Qed.

(** Scanning the segment [b] of [exp = a ++ b ++ rest] adds [depth b] to
    [lopen]; without an operator in [b] the tree in hand is kept. *)
Lemma scan_segment (b : str) :
  forall (a rest : str) (lopen : Z) (node : option Node),
    exp = a ++ b ++ rest ->
    exists node',
      for_each (scan_step create_exp_tree exp)
               (seq (length a) (length b)) (lopen, node)
      = Ok ((lopen + depth b)%Z, node')
      /\ (has_op b = false -> node' = node).
Proof.
  induction b as [|c b IH]; intros a rest lopen node E.
  - exists node. cbn. rewrite Z.add_0_r. auto.
  - cbn [length seq for_each]. rewrite (scan_step_at lopen node a (b ++ rest) c E).
    assert (E' : exp = (a ++ [c]) ++ b ++ rest).
    { rewrite <- app_assoc. exact E. }
    assert (L : S (length a) = length (a ++ [c])).
    { rewrite length_app. cbn. lia. }
    rewrite L. cbn [depth]. unfold delta. rewrite has_op_cons.
    destruct (Ascii.eqb c "(").
    { cbn [bind]. destruct (IH _ _ (lopen + 1)%Z node E') as (n' & -> & Hn).
      exists n'. split; [f_equal; f_equal; lia|].
      intros H. apply orb_false_iff in H. apply Hn, H. }
    destruct (Ascii.eqb c ")").
    { cbn [bind]. destruct (IH _ _ (lopen - 1)%Z node E') as (n' & -> & Hn).
      exists n'. split; [f_equal; f_equal; lia|].
      intros H. apply orb_false_iff in H. apply Hn, H. }
    destruct (is_op c) eqn:Eop; cbn [andb orb].
    + destruct (lopen =? 0)%Z.
      * destruct (create_exp_tree_ok (strip a)) as (tl & -> & _).
        destruct (create_exp_tree_ok (strip (b ++ rest))) as (tr & -> & _).
        cbn [bind].
        destruct (IH _ _ lopen (Some (mkNode [c] (Some tl) (Some tr))) E')
          as (n' & -> & _).
        exists n'. split; [f_equal; f_equal; lia|discriminate].
      * cbn [bind]. destruct (IH _ _ lopen node E') as (n' & -> & _).
        exists n'. split; [f_equal; f_equal; lia|discriminate].
    + cbn [bind]. destruct (IH _ _ lopen node E') as (n' & -> & Hn).
      exists n'. split; [f_equal; f_equal; lia|exact Hn].
Qed.

End Scan.

(** The split: an operator [op] met at depth 0 with no operator after
    it is the root; its right child is the leaf of what follows and its
    left child the tree of what precedes. *)
Lemma split_at_last_operator (l r : str) (op : ascii) :
  is_op op = true -> depth l = 0%Z -> has_op r = false ->
  (count "("%char (l ++ op :: r) <? 1)%nat
    && str_eqb (slice (l ++ op :: r) (Some (-1)%Z) None) (lit ")") = false ->
  exists tl,
    create_exp_tree (strip l) = Ok tl /\
    create_exp_tree (l ++ op :: r)
    = Ok (mkNode [op] (Some tl) (Some (new_node (strip r)))).
Proof.
  intros Hop Hl Hr Hsec.
  destruct (create_exp_tree_ok (strip l)) as (tl & El & _).
  exists tl. split; [exact El|].
  rewrite create_exp_tree_eq, first_test, Hsec.
  assert (H : has_op (l ++ op :: r) = true).
  { apply has_op_In. exists op. split; [apply in_elt|exact Hop]. }
  rewrite H. cbn [negb].
  rewrite length_app. cbn [length]. rewrite seq_app. cbn [seq Nat.add].
  rewrite for_each_app.
  destruct (@scan_segment (l ++ op :: r) l [] (op :: r) 0%Z None eq_refl)
    as (n1 & E1 & _).
  cbn [length] in E1. rewrite E1. cbn [bind for_each].
  rewrite (@scan_step_at (l ++ op :: r) _ n1 l r op eq_refl).
  rewrite Hl, Hop. cbn [Z.add Z.eqb andb].
  assert (D := is_op_delta op Hop). unfold delta in D.
  destruct (Ascii.eqb op "("); [discriminate|].
  destruct (Ascii.eqb op ")"); [discriminate|].
  rewrite El, (create_exp_tree_leaf _ (has_op_strip _ Hr)). cbn [bind].
  destruct (@scan_segment (l ++ op :: r) r (l ++ [op]) [] 0%Z
              (Some (mkNode [op] (Some tl) (Some (new_node (strip r))))))
    as (n2 & E2 & Hn2).
  { rewrite app_nil_r, <- app_assoc. reflexivity. }
  rewrite length_app in E2. cbn [length] in E2.
  rewrite Nat.add_1_r in E2. rewrite E2. cbn [bind snd].
  rewrite (Hn2 Hr). reflexivity.
Qed.

(* ================================================================= *)
(** ** The entry point keeps the module state *)

Lemma mem_base_queries (k : str) :
  mem k (keys base_queries) = true ->
  k = lit "SQL" \/ k = lit "MONGODB" \/ k = lit "ORM"
  \/ k = lit "ELASTICSEARCH".
Proof.
  unfold mem, keys, base_queries. cbn [map fst existsb].
  rewrite orb_false_r, !orb_true_iff, !str_eqb_eq. tauto.
Qed.

Lemma generate_query_globals (exp query_type : str) (w : World) :
  globals (snd (generate_query exp query_type w)) = globals w.
Proof.
  unfold generate_query.
  destruct (negb _); [reflexivity|].
  destruct (create_exp_tree _); [|reflexivity].
  destruct (create_query _ _ _); reflexivity.
Qed.

Lemma run_globals (calls : list (str * str)) :
  forall w, globals (run calls w) = globals w.
Proof.
  induction calls as [|c calls IH]; intros w; [reflexivity|].
  cbn [run fold_left]. fold (run calls). rewrite IH.
  apply generate_query_globals.
Qed.

Lemma create_query_globals (w w' : World) (root : Node) (k : str) :
  globals w = globals w' -> create_query w root k = create_query w' root k.
Proof.
  unfold globals, create_query. intros [= -> ->]. reflexivity.
Qed.

(** The result of a call is a function of the arguments and of the two
    dictionaries; what is on the console plays no part. *)
Lemma generate_query_reads_globals (exp query_type : str) (w w' : World) :
  globals w = globals w' ->
  fst (generate_query exp query_type w)
  = fst (generate_query exp query_type w').
Proof.
  intros G. unfold generate_query.
  assert (B : BASE_QUERIES w = BASE_QUERIES w').
  { unfold globals in G. congruence. }
  rewrite B. destruct (negb _); [reflexivity|].
  destruct (create_exp_tree _); [|reflexivity].
  rewrite (create_query_globals w w' _ _ G).
  destruct (create_query _ _ _); reflexivity.
Qed.

(** A request for a type that is not a key of [BASE_QUERIES] is
    answered at once: nothing is parsed, emitted or printed. *)
Lemma generate_query_invalid (exp query_type : str) (w : World) :
  mem (upper query_type) (keys (BASE_QUERIES w)) = false ->
  generate_query exp query_type w = (Ok invalid_request, w).
Proof. unfold generate_query. intros ->. reflexivity. Qed.

(** X10: the type is compared after [upper], whatever the case it came
    in: a call with a type and the call with that type in upper case
    return the same and leave the same world. *)
Lemma generate_query_upper (exp query_type : str) (w : World) :
  generate_query exp (upper query_type) w = generate_query exp query_type w.
Proof.
  unfold generate_query. replace (upper (upper query_type))
    with (upper query_type); [reflexivity|].
  unfold upper. rewrite map_map. apply map_ext. intros c.
  destruct c as [[] [] [] [] [] [] [] []]; reflexivity.
Qed.

(* ================================================================= *)
(** ** Stripping and operators *)

Lemma is_op_not_space (c : ascii) : is_op c = true -> is_space c = false.
Proof.
  unfold is_op. intros H. apply orb_true_iff in H.
  destruct H as [H|H]; apply Ascii.eqb_eq in H; subst; reflexivity.
Qed.

Lemma lstrip_idem (s : str) : lstrip (lstrip s) = lstrip s.
Proof.
  induction s as [|c s IH]; [reflexivity|]. cbn [lstrip].
  destruct (is_space c) eqn:E; [exact IH|]. cbn [lstrip]. rewrite E.
  reflexivity.
Qed.

Lemma lstrip_app_nonspace (a b : str) (c : ascii) :
  is_space c = false -> lstrip (a ++ c :: b) = lstrip a ++ c :: b.
Proof.
  intros H. induction a as [|x a IH]; cbn [lstrip app].
  - rewrite H. reflexivity.
  - destruct (is_space x); [exact IH|reflexivity].
Qed.

Lemma lstrip_snoc (a : str) (c : ascii) :
  lstrip (a ++ [c]) =
  match lstrip a with [] => lstrip [c] | _ :: _ => lstrip a ++ [c] end.
Proof.
  induction a as [|x a IH]; [reflexivity|]. cbn [lstrip app].
  destruct (is_space x); [exact IH|reflexivity].
Qed.

Lemma rstrip_app_nonspace (a b : str) (c : ascii) :
  is_space c = false -> rstrip (a ++ c :: b) = a ++ c :: rstrip b.
Proof.
  intros H. unfold rstrip. rewrite rev_app_distr. cbn [rev].
  rewrite <- app_assoc. cbn [app].
  rewrite (lstrip_app_nonspace _ _ _ H), rev_app_distr. cbn [rev].
  rewrite rev_involutive, <- app_assoc. reflexivity.
Qed.

Lemma rstrip_cons (c : ascii) (s : str) :
  rstrip (c :: s) =
  match rstrip s with [] => lstrip [c] | _ :: _ => c :: rstrip s end.
Proof.
  unfold rstrip. cbn [rev]. rewrite lstrip_snoc.
  destruct (lstrip (rev s)) as [|x y] eqn:E.
  - cbn [rev]. cbn [lstrip]. destruct (is_space c); reflexivity.
  - rewrite rev_app_distr. cbn [rev app].
    destruct (rev y ++ [x]) eqn:F; [|reflexivity].
    apply app_eq_nil in F. destruct F as [_ F]. discriminate.
Qed.

Lemma lstrip_rstrip (s : str) : lstrip (rstrip s) = rstrip (lstrip s).
Proof.
  induction s as [|c s IH]; [reflexivity|].
  rewrite rstrip_cons. cbn [lstrip]. destruct (is_space c) eqn:E.
  - rewrite <- IH. destruct (rstrip s); [reflexivity|].
    cbn [lstrip]. rewrite E. reflexivity.
  - rewrite rstrip_cons.
    destruct (rstrip s); cbn [lstrip]; rewrite E; reflexivity.
Qed.

Lemma rstrip_idem (s : str) : rstrip (rstrip s) = rstrip s.
Proof.
  unfold rstrip. rewrite rev_involutive, lstrip_idem. reflexivity.
Qed.

Lemma strip_lstrip (s : str) : strip (lstrip s) = strip s.
Proof. unfold strip. rewrite lstrip_idem. reflexivity. Qed.

Lemma strip_rstrip (s : str) : strip (rstrip s) = strip s.
Proof. unfold strip. rewrite lstrip_rstrip, rstrip_idem. reflexivity. Qed.

Lemma strip_around (a b : str) (c : ascii) :
  is_space c = false -> strip (a ++ c :: b) = lstrip a ++ c :: rstrip b.
Proof.
  intros H. unfold strip.
  rewrite (lstrip_app_nonspace _ _ _ H). apply rstrip_app_nonspace, H.
Qed.

(* ================================================================= *)
(** ** Flat chains *)

Lemma chain_snoc (first : str) (rest : list (ascii * str))
      (op : ascii) (a : str) :
  chain first (rest ++ [(op, a)]) = chain first rest ++ op :: a.
Proof.
  unfold chain. rewrite flat_map_app. cbn [flat_map fst snd].
  rewrite app_nil_r, app_assoc. reflexivity.
Qed.

Lemma left_assoc_snoc (first : str) (rest : list (ascii * str))
      (op : ascii) (a : str) :
  left_assoc first (rest ++ [(op, a)])
  = mkNode [op] (Some (left_assoc first rest)) (Some (new_node (strip a))).
Proof. unfold left_assoc. rewrite fold_left_app. reflexivity. Qed.

Lemma flat_iff (s : str) :
  flat s = true <-> forall c, In c s -> delta c = 0%Z.
Proof.
  induction s as [|a s IH]; [split; [intros _ c []|reflexivity]|]. split.
  - intros H c [<-|Hc]; apply flat_cons in H; destruct H as [H1 H2];
      [exact H1|]. apply IH; assumption.
  - intros H. assert (Hs : flat s = true).
    { apply IH. intros c Hc. apply H. right. exact Hc. }
    assert (Ha := H a (or_introl eq_refl)).
    unfold flat in *. change (lit "(") with ["("%char] in *.
    change (lit ")") with [")"%char] in *. rewrite !occurs_char in *.
    cbn [existsb]. unfold delta in Ha.
    rewrite (Ascii.eqb_sym "(" a), (Ascii.eqb_sym ")" a).
    destruct (Ascii.eqb a "("); [discriminate|].
    destruct (Ascii.eqb a ")"); [discriminate|]. exact Hs.
Qed.

Lemma operand_flat (a : str) : operand a = true -> flat a = true.
Proof. unfold operand. intros H. apply andb_true_iff in H. apply H. Qed.

Lemma operand_has_op (a : str) : operand a = true -> has_op a = false.
Proof.
  unfold operand. intros H. apply andb_true_iff in H.
  apply negb_true_iff, H.
Qed.

Lemma flat_chain (first : str) (rest : list (ascii * str)) :
  operand first = true -> forallb link rest = true ->
  flat (chain first rest) = true.
Proof.
  intros Hf Hr. apply flat_iff. intros c Hc. unfold chain in Hc.
  apply in_app_or in Hc. destruct Hc as [Hc|Hc].
  - exact (proj1 (flat_iff first) (operand_flat first Hf) c Hc).
  - apply in_flat_map in Hc. destruct Hc as (p & Hp & Hc).
    rewrite forallb_forall in Hr. specialize (Hr p Hp). unfold link in Hr.
    apply andb_true_iff in Hr. destruct Hr as [H1 H2].
    destruct Hc as [<-|Hc]; [apply is_op_delta, H1|].
    exact (proj1 (flat_iff (snd p)) (operand_flat _ H2) c Hc).
Qed.

Lemma In_rstrip (c : ascii) (s : str) : In c (rstrip s) -> In c s.
Proof.
  unfold rstrip. intros H.
  apply (proj2 (in_rev _ _)), In_lstrip, (proj2 (in_rev _ _)). exact H.
Qed.

Lemma flat_lstrip (s : str) : flat s = true -> flat (lstrip s) = true.
Proof.
  rewrite !flat_iff. intros H c Hc. apply H, In_lstrip, Hc.
Qed.

Lemma flat_rstrip (s : str) : flat s = true -> flat (rstrip s) = true.
Proof.
  rewrite !flat_iff. intros H c Hc. apply H, In_rstrip, Hc.
Qed.

Lemma has_op_rstrip (s : str) : has_op s = false -> has_op (rstrip s) = false.
Proof.
  rewrite !has_op_false_In. intros H c Hc. apply H, In_rstrip, Hc.
Qed.

(** A flat expression never takes the [generate_node] branch. *)
Lemma flat_second_test (exp : str) :
  flat exp = true ->
  (count "("%char exp <? 1)%nat
    && str_eqb (slice exp (Some (-1)%Z) None) (lit ")") = false.
Proof.
  intros H. apply andb_false_iff. right.
  destruct exp as [|a exp] using rev_ind; [reflexivity|].
  rewrite slice_last. unfold str_eqb.
  destruct (list_eq_dec ascii_dec [a] (lit ")")) as [E|E]; [|reflexivity].
  injection E as ->. exfalso.
  apply (flat_In _ ")"%char H); [|reflexivity].
  apply in_or_app. right. left. reflexivity.
Qed.

(** The stripped text of a chain parses into its left-associative
    grouping. *)
Lemma create_exp_tree_chain (first : str) (rest : list (ascii * str)) :
  operand first = true -> forallb link rest = true ->
  create_exp_tree (strip (chain first rest)) = Ok (left_assoc first rest).
Proof.
  intros Hf. induction rest as [|[op a] rest IH] using rev_ind; intros Hr.
  - unfold chain. cbn [flat_map]. rewrite app_nil_r.
    apply create_exp_tree_leaf, has_op_strip, operand_has_op, Hf.
  - rewrite forallb_app in Hr. apply andb_true_iff in Hr.
    destruct Hr as [Hr Hl]. cbn [forallb] in Hl. rewrite andb_true_r in Hl.
    unfold link in Hl. cbn [fst snd] in Hl. apply andb_true_iff in Hl.
    destruct Hl as [Hop Ha].
    rewrite chain_snoc, left_assoc_snoc.
    rewrite (strip_around _ _ _ (is_op_not_space op Hop)).
    destruct (split_at_last_operator (lstrip (chain first rest)) (rstrip a) op)
      as (tl & El & E).
    + exact Hop.
    + apply flat_depth, flat_lstrip, flat_chain; assumption.
    + apply has_op_rstrip, operand_has_op, Ha.
    + apply flat_second_test. apply flat_iff. intros c Hc.
      apply in_app_or in Hc. destruct Hc as [Hc|[<-|Hc]].
      * apply (proj1 (flat_iff _) (flat_lstrip _ (flat_chain _ _ Hf Hr)) c Hc).
      * apply is_op_delta, Hop.
      * apply (proj1 (flat_iff _) (flat_rstrip _ (operand_flat _ Ha)) c Hc).
    + rewrite strip_lstrip, (IH Hr) in El. injection El as <-.
      rewrite E, strip_rstrip. reflexivity.
Qed.

(* ================================================================= *)
(** ** Normalisation of the expression *)

Lemma replace_items_value_dict (exp : str) :
  replace_items value_dict exp =
  replace dq (lit "")
    (replace (lit " and ") (lit "&")
       (replace (lit " AND ") (lit "&")
          (replace (lit " or ") (lit "|")
             (replace (lit " OR ") (lit "|") (pad_parens exp))))).
Proof. reflexivity. Qed.

Lemma normalised_no_quote (exp : str) :
  ~ In dq_char (replace_items value_dict exp).
Proof.
  rewrite replace_items_value_dict. change dq with [dq_char].
  intros H. apply In_replace_char in H.
  destruct H as [[_ H]|[_ H]]; [congruence|exact H].
Qed.

Lemma has_op_pad_parens (exp : str) :
  has_op exp = false -> has_op (pad_parens exp) = false.
Proof.
  rewrite !has_op_false_In. intros H c Hc. unfold pad_parens in Hc.
  change (lit ")") with [")"%char] in Hc. change (lit "(") with ["("%char] in Hc.
  apply In_replace_char in Hc. destruct Hc as [[Hc _]|[_ Hc]].
  - apply In_replace_char in Hc. destruct Hc as [[Hc _]|[_ Hc]].
    + apply H, Hc.
    + cbn in Hc. destruct Hc as [<-|[<-|[<-|[]]]]; reflexivity.
  - cbn in Hc. destruct Hc as [<-|[<-|[<-|[]]]]; reflexivity.
Qed.

Lemma normalised_keyword_free (exp : str) :
  keyword_free (pad_parens exp) = true ->
  replace_items value_dict exp = replace dq (lit "") (pad_parens exp).
Proof.
  intros H. rewrite replace_items_value_dict.
  unfold keyword_free, keyword_forms in H. cbn [forallb] in H.
  rewrite !andb_true_iff, !negb_true_iff in H.
  destruct H as (H1 & H2 & H3 & H4 & _).
  rewrite (replace_absent (lit " OR ") (lit "|")); [|discriminate|exact H1].
  rewrite (replace_absent (lit " or ") (lit "|")); [|discriminate|exact H2].
  rewrite (replace_absent (lit " AND ") (lit "&")); [|discriminate|exact H3].
  rewrite (replace_absent (lit " and ") (lit "&")); [|discriminate|exact H4].
  reflexivity.
Qed.

(* ================================================================= *)
(** ** What the emitters produce *)

Lemma sql_keywords_app (a b : str) :
  sql_keywords (a ++ b) = sql_keywords a ++ sql_keywords b.
Proof.
  unfold sql_keywords. change (lit "&") with ["&"%char].
  change (lit "|") with ["|"%char]. rewrite !replace_char_app. reflexivity.
Qed.

Lemma replace_op_free (p : ascii) (new v : str) :
  is_op p = true -> has_op v = false -> replace [p] new v = v.
Proof.
  intros Hp Hv. apply replace_absent; [discriminate|].
  apply occurs_char_false. intros H.
  rewrite (proj1 (has_op_false_In v) Hv p H) in Hp. discriminate.
Qed.

Lemma sql_keywords_plain (v : str) : has_op v = false -> sql_keywords v = v.
Proof.
  intros H. unfold sql_keywords. change (lit "&") with ["&"%char].
  change (lit "|") with ["|"%char].
  rewrite (replace_op_free "|"%char _ v eq_refl H).
  apply (replace_op_free "&"%char _ v eq_refl H).
Qed.

(** After the two replacements the text of [inorder] is the relational
    form. *)
Lemma sql_keywords_inorder :
  forall t, well_formed t = true -> plain_leaves t = true ->
            sql_keywords (inorder t) = sql_form t.
Proof.
  fix IH 1. intros [v [l|] [r|]] W P; cbn in W; try discriminate.
  - apply andb_true_iff in W. destruct W as [W Wr].
    apply andb_true_iff in W. destruct W as [Wv Wl].
    cbn [plain_leaves] in P. apply andb_true_iff in P. destruct P as [Pl Pr].
    cbn [inorder sql_form option_map fmt].
    rewrite !sql_keywords_app, (IH l Wl Pl), (IH r Wr Pr).
    apply orb_true_iff in Wv.
    destruct Wv as [Wv|Wv]; apply str_eqb_eq in Wv; subst v; reflexivity.
  - cbn [plain_leaves] in P. apply negb_true_iff in P.
    cbn [inorder sql_form]. rewrite !sql_keywords_app, (sql_keywords_plain v P).
    reflexivity.
Qed.

(** [s[1:-1]] drops the first and the last character. *)
Lemma slice_inner (a z : ascii) (m : str) :
  slice (a :: m ++ [z]) (Some 1%Z) (Some (-1)%Z) = m.
Proof.
  unfold slice, norm_index. cbn [length]. rewrite length_app. cbn [length].
  destruct (Z.ltb_spec 1 0) as [E|E]; [lia|].
  destruct (Z.ltb_spec (-1) 0) as [F|F]; [|lia].
  replace (Z.to_nat (Z.min _ (Z.max 0 1))) with 1 by lia.
  replace (Z.to_nat _ - 1) with (length m) by lia.
  cbn [skipn]. apply firstn_middle.
Qed.

(** X12: for a well-formed tree with plain leaves whose root is an
    operator, the SQL query is the envelope
    around the relational form without its outer pair of parentheses. *)
Lemma create_query_sql_operator_root
      (out : list str) (v : str) (l r : Node) :
  let t := mkNode v (Some l) (Some r) in
  well_formed t = true -> plain_leaves t = true ->
  exists body,
    sql_form t = lit "(" ++ body ++ lit ")" /\
    create_query (module_world out) t (lit "SQL")
    = Ok (lit "SELECT * FROM Resume WHERE " ++ body).
Proof.
  intros t W P.
  exists (sql_form l ++ lit " " ++ sql_keyword v ++ lit " " ++ sql_form r).
  split.
  - cbn [sql_form t]. rewrite <- !app_assoc. reflexivity.
  - cbn [well_formed t] in W. apply andb_true_iff in W. destruct W as [W Wr].
    apply andb_true_iff in W. destruct W as [Wv Wl].
    cbn [plain_leaves t] in P. apply andb_true_iff in P. destruct P as [Pl Pr].
    unfold create_query.
    change (str_eqb (lit "SQL") (lit "ORM")) with false.
    change (str_eqb (lit "SQL") (lit "ELASTICSEARCH")) with false.
    change (str_eqb (lit "SQL") (lit "SQL")) with true.
    cbv iota. fold (sql_keywords (slice (inorder t) (Some 1%Z) (Some (-1)%Z))).
    change (getitem (BASE_QUERIES (module_world out)) (lit "SQL"))
      with (Ok (lit "SELECT * FROM Resume WHERE ") : result str).
    change (getitem (END_QUERIES (module_world out)) (lit "SQL"))
      with (Ok (lit "") : result str).
    cbn [bind]. rewrite app_nil_r. f_equal. f_equal.
    cbn [inorder t option_map fmt].
    change (lit "(" ++ inorder l ++ lit " " ++ v ++ lit " " ++ inorder r ++ lit ")")
      with ("("%char :: (inorder l ++ lit " " ++ v ++ lit " " ++ inorder r ++ [")"%char])).
    replace (inorder l ++ lit " " ++ v ++ lit " " ++ inorder r ++ [")"%char])
      with ((inorder l ++ lit " " ++ v ++ lit " " ++ inorder r) ++ [")"%char])
      by (rewrite <- !app_assoc; reflexivity).
    rewrite slice_inner, !sql_keywords_app.
    rewrite (sql_keywords_inorder l Wl Pl), (sql_keywords_inorder r Wr Pr).
    apply orb_true_iff in Wv.
    destruct Wv as [Wv|Wv]; apply str_eqb_eq in Wv; subst v; reflexivity.
Qed.

(** X13: the four queries of a tree that is one leaf without operator
    characters.  The SQL text lacks the closing quote of its pattern. *)
Lemma create_query_leaf (out : list str) (v : str) :
  has_op v = false ->
  create_query (module_world out) (new_node v) (lit "SQL")
  = Ok (lit "SELECT * FROM Resume WHERE text like '%" ++ v ++ lit "%")
  /\ create_query (module_world out) (new_node v) (lit "MONGODB")
     = Ok (quoted "{{`text` : /.*" ++ v ++ lit ".*/i}}")
  /\ create_query (module_world out) (new_node v) (lit "ORM")
     = Ok (lit "text__icontains='" ++ v ++ lit "'")
  /\ create_query (module_world out) (new_node v) (lit "ELASTICSEARCH")
     = Ok (quoted " `query`: {`match` : { `text` : {`" ++ v
             ++ quoted "`} } ").
Proof.
  intros H.
  assert (R : forall p new, is_op p = true -> replace [p] new v = v).
  { intros p new Hp. apply replace_op_free; assumption. }
  unfold create_query, new_node. repeat split.
  - change (str_eqb (lit "SQL") (lit "ORM")) with false.
    change (str_eqb (lit "SQL") (lit "ELASTICSEARCH")) with false.
    change (str_eqb (lit "SQL") (lit "SQL")) with true.
    cbv iota. cbn [inorder].
    replace (lit " text like '%" ++ v ++ lit "%'")
      with (" "%char :: (lit "text like '%" ++ v ++ lit "%") ++ ["'"%char])
      by (rewrite <- !app_assoc; reflexivity).
    rewrite slice_inner.
    change (lit "|") with ["|"%char]. change (lit "&") with ["&"%char].
    rewrite !replace_char_app, !R by reflexivity.
    cbn [getitem lookup BASE_QUERIES END_QUERIES module_world].
    change (getitem base_queries (lit "SQL"))
      with (Ok (lit "SELECT * FROM Resume WHERE ") : result str).
    change (getitem end_queries (lit "SQL")) with (Ok (lit "") : result str).
    cbn [bind]. rewrite app_nil_r. reflexivity.
  - change (str_eqb (lit "MONGODB") (lit "ORM")) with false.
    change (str_eqb (lit "MONGODB") (lit "ELASTICSEARCH")) with false.
    change (str_eqb (lit "MONGODB") (lit "SQL")) with false.
    change (str_eqb (lit "MONGODB") (lit "MONGODB")) with true.
    cbv iota. cbn [preorder].
    change (lit "|") with ["|"%char]. change (lit "&") with ["&"%char].
    rewrite !replace_char_app, !R by reflexivity.
    change (getitem (BASE_QUERIES (module_world out)) (lit "MONGODB"))
      with (Ok (lit "{") : result str).
    change (getitem (END_QUERIES (module_world out)) (lit "MONGODB"))
      with (Ok (lit "}") : result str).
    cbn [bind]. rewrite <- !app_assoc. reflexivity.
  - change (str_eqb (lit "ORM") (lit "ORM")) with true.
    cbv iota. cbn [inorder_orm].
    change (lit "&") with ["&"%char].
    rewrite !replace_char_app, !R by reflexivity.
    change (getitem (BASE_QUERIES (module_world out)) (lit "ORM"))
      with (Ok (lit "") : result str).
    change (getitem (END_QUERIES (module_world out)) (lit "ORM"))
      with (Ok (lit "") : result str).
    cbn [bind]. rewrite app_nil_r. reflexivity.
  - change (str_eqb (lit "ELASTICSEARCH") (lit "ORM")) with false.
    change (str_eqb (lit "ELASTICSEARCH") (lit "ELASTICSEARCH")) with true.
    cbv iota. cbn [preorder_elasticsearch].
    change (lit "|") with ["|"%char]. change (lit "&") with ["&"%char].
    rewrite !replace_char_app, !R by reflexivity.
    change (getitem (BASE_QUERIES (module_world out)) (lit "ELASTICSEARCH"))
      with (Ok (quoted " `query`: ") : result str).
    change (getitem (END_QUERIES (module_world out)) (lit "ELASTICSEARCH"))
      with (Ok (lit "") : result str).
    cbn [bind]. rewrite app_nil_r, <- !app_assoc. reflexivity.
Qed.

(** A single operand: the query is that of the one-leaf tree. *)
Lemma generate_query_single_operand (exp query_type : str) (out : list str) :
  has_op (replace_items value_dict exp) = false ->
  mem (upper query_type) (keys base_queries) = true ->
  fst (generate_query exp query_type (module_world out))
  = create_query (module_world out)
      (new_node (replace_items value_dict exp)) (upper query_type).
Proof.
  intros H K. unfold generate_query. cbn [BASE_QUERIES module_world].
  rewrite K, (create_exp_tree_leaf _ H). cbn [negb].
  destruct (create_query _ _ _); reflexivity.
Qed.

(** Loading the module prints the SQL query of the example, and leaves
    the dictionaries as they are. *)
Lemma loaded_state :
  loaded = module_world
    [lit "SELECT * FROM Resume WHERE ( text like '%Java%' AND  text like '%Spring%') OR ( text like '%Python%' AND  text like '%Django%')"].
Proof. vm_compute. reflexivity. Qed.

(** An empty operand position: the text after the operator is empty,
    and the builder makes a leaf with the empty text of it. *)
Lemma empty_operand_builds_tree :
  replace_items value_dict (lit "A AND ") = lit "A&" /\
  create_exp_tree (lit "A&")
  = Ok (mkNode (lit "&") (Some (new_node (lit "A")))
               (Some (new_node (lit "")))).
Proof. split; vm_compute; reflexivity. Qed.

(* ================================================================= *)
(** * Further properties *)

(* ================================================================= *)
(** ** The loop and the operators at depth 0 *)

Lemma has_top_op_false_has_op (lopen : Z) (s : str) :
  has_op s = false -> has_top_op lopen s = false.
Proof.
  revert lopen. induction s as [|c s IH]; intros lopen H; [reflexivity|].
  rewrite has_op_cons in H. apply orb_false_iff in H. destruct H as [H1 H2].
  cbn [has_top_op]. rewrite H1, !IH by exact H2.
  destruct (Ascii.eqb c "("), (Ascii.eqb c ")"); reflexivity.
Qed.

Section ScanTop.

Variable exp : str.

(** Scanning a segment: [lopen] moves by its depth; the tree in hand is
    kept when no operator is met at depth 0, and there is one after the
    segment when some operator is. *)
Lemma scan_segment_top (b : str) :
  forall (a rest : str) (lopen : Z) (node : option Node),
    exp = a ++ b ++ rest ->
    exists node',
      for_each (scan_step create_exp_tree exp)
               (seq (length a) (length b)) (lopen, node)
      = Ok ((lopen + depth b)%Z, node')
      /\ (has_top_op lopen b = false -> node' = node)
      /\ (node' = None -> node = None /\ has_top_op lopen b = false).
Proof.
  induction b as [|c b IH]; intros a rest lopen node E.
  - exists node. cbn. rewrite Z.add_0_r. auto.
  - cbn [length seq for_each].
    rewrite (scan_step_at exp lopen node a (b ++ rest) c E).
    assert (E' : exp = (a ++ [c]) ++ b ++ rest).
    { rewrite <- app_assoc. exact E. }
    assert (L : S (length a) = length (a ++ [c])).
    { rewrite length_app. cbn. lia. }
    rewrite L. cbn [depth has_top_op]. unfold delta.
    destruct (Ascii.eqb c "(").
    { cbn [bind]. destruct (IH _ _ (lopen + 1)%Z node E') as (n' & -> & Hn).
      exists n'. split; [f_equal; f_equal; lia|exact Hn]. }
    destruct (Ascii.eqb c ")").
    { cbn [bind]. destruct (IH _ _ (lopen - 1)%Z node E') as (n' & -> & Hn).
      exists n'. split; [f_equal; f_equal; lia|exact Hn]. }
    destruct (is_op c && (lopen =? 0)%Z); cbn [orb].
    + destruct (create_exp_tree_ok (strip a)) as (tl & -> & _).
      destruct (create_exp_tree_ok (strip (b ++ rest))) as (tr & -> & _).
      cbn [bind].
      destruct (IH _ _ lopen (Some (mkNode [c] (Some tl) (Some tr))) E')
        as (n' & -> & _ & Hn).
      exists n'. split; [f_equal; f_equal; lia|].
      split; [discriminate|].
      intros N. destruct (Hn N) as [N' _]. discriminate.
    + cbn [bind]. destruct (IH _ _ lopen node E') as (n' & -> & Hn).
      exists n'. split; [f_equal; f_equal; lia|exact Hn].
Qed.

End ScanTop.

(** With every operator inside parentheses, the builder drops the first
    and the last character and parses what is between. *)
Lemma create_exp_tree_inner (exp : str) :
  has_op exp = true -> has_top_op 0 exp = false ->
  (count "("%char exp <? 1)%nat
    && str_eqb (slice exp (Some (-1)%Z) None) (lit ")") = false ->
  create_exp_tree exp = create_exp_tree (slice exp (Some 1%Z) (Some (-1)%Z)).
Proof.
  intros Hop Htop Hsec.
  rewrite create_exp_tree_eq, first_test, Hop, Hsec. cbn [negb].
  destruct (scan_segment_top exp exp [] [] 0%Z None) as (n & E & Hn & _).
  { rewrite app_nil_r. reflexivity. }
  cbn [length] in E. rewrite E. cbn [bind snd]. rewrite (Hn Htop).
  reflexivity.
Qed.

(** An operator at depth 0 with no operator at depth 0 after it is the
    root, and its children are the trees of the stripped text on each
    side. *)
Lemma create_exp_tree_top_split (l r : str) (op : ascii) :
  is_op op = true -> depth l = 0%Z -> has_top_op 0 r = false ->
  (count "("%char (l ++ op :: r) <? 1)%nat
    && str_eqb (slice (l ++ op :: r) (Some (-1)%Z) None) (lit ")") = false ->
  exists tl tr,
    create_exp_tree (strip l) = Ok tl /\
    create_exp_tree (strip r) = Ok tr /\
    create_exp_tree (l ++ op :: r) = Ok (mkNode [op] (Some tl) (Some tr)).
Proof.
  intros Hop Hl Hr Hsec.
  destruct (create_exp_tree_ok (strip l)) as (tl & El & _).
  destruct (create_exp_tree_ok (strip r)) as (tr & Er & _).
  exists tl, tr. split; [exact El|]. split; [exact Er|].
  rewrite create_exp_tree_eq, first_test, Hsec.
  assert (H : has_op (l ++ op :: r) = true).
  { apply has_op_In. exists op. split; [apply in_elt|exact Hop]. }
  rewrite H. cbn [negb].
  rewrite length_app. cbn [length]. rewrite seq_app. cbn [seq Nat.add].
  rewrite for_each_app.
  destruct (scan_segment (l ++ op :: r) l [] (op :: r) 0%Z None eq_refl)
    as (n1 & E1 & _).
  cbn [length] in E1. rewrite E1. cbn [bind for_each].
  rewrite (scan_step_at (l ++ op :: r) _ n1 l r op eq_refl).
  rewrite Hl, Hop. cbn [Z.add Z.eqb andb].
  assert (D := is_op_delta op Hop). unfold delta in D.
  destruct (Ascii.eqb op "("); [discriminate|].
  destruct (Ascii.eqb op ")"); [discriminate|].
  rewrite El, Er. cbn [bind].
  destruct (scan_segment_top (l ++ op :: r) r (l ++ [op]) [] 0%Z
              (Some (mkNode [op] (Some tl) (Some tr))))
    as (n2 & E2 & Hn2 & _).
  { rewrite app_nil_r, <- app_assoc. reflexivity. }
  rewrite length_app in E2. cbn [length] in E2.
  rewrite Nat.add_1_r in E2. rewrite E2. cbn [bind snd].
  rewrite (Hn2 Hr). reflexivity.
Qed.

(* ================================================================= *)
(** ** Parenthesised groups *)

Lemma is_space_plain (c : ascii) :
  is_space c = true -> delta c = 0%Z /\ is_op c = false.
Proof.
  destruct c as [[] [] [] [] [] [] [] []]; cbn; intros H;
    try discriminate; split; reflexivity.
Qed.

Lemma depth_app (a b : str) : depth (a ++ b) = (depth a + depth b)%Z.
Proof.
  induction a as [|c a IH]; cbn [depth app]; [reflexivity|]. rewrite IH. lia.
Qed.

Lemma depth_blank (w : str) : blank w = true -> depth w = 0%Z.
Proof.
  induction w as [|c w IH]; intros H; [reflexivity|].
  cbn [blank forallb] in H. apply andb_true_iff in H. destruct H as [H1 H2].
  cbn [depth]. rewrite (proj1 (is_space_plain c H1)), (IH H2). reflexivity.
Qed.

Lemma has_top_op_plain (lopen : Z) (c : ascii) (s : str) :
  delta c = 0%Z -> is_op c && (lopen =? 0)%Z = false ->
  has_top_op lopen (c :: s) = has_top_op lopen s.
Proof.
  intros D H. cbn [has_top_op]. unfold delta in D.
  destruct (Ascii.eqb c "("); [discriminate|].
  destruct (Ascii.eqb c ")"); [discriminate|].
  rewrite H. reflexivity.
Qed.

Lemma has_top_op_flat (lopen : Z) (s t : str) :
  flat s = true -> lopen <> 0%Z ->
  has_top_op lopen (s ++ t) = has_top_op lopen t.
Proof.
  intros H N. induction s as [|c s IH]; [reflexivity|].
  apply flat_cons in H. destruct H as [H1 H2]. cbn [app].
  rewrite has_top_op_plain; [apply IH, H2|exact H1|].
  apply Z.eqb_neq in N. rewrite N. apply andb_false_r.
Qed.

Lemma has_top_op_blank (lopen : Z) (w t : str) :
  blank w = true -> has_top_op lopen (w ++ t) = has_top_op lopen t.
Proof.
  intros H. induction w as [|c w IH]; [reflexivity|].
  cbn [blank forallb] in H. apply andb_true_iff in H. destruct H as [H1 H2].
  destruct (is_space_plain c H1) as [D O]. cbn [app].
  rewrite has_top_op_plain; [apply IH, H2|exact D|]. rewrite O. reflexivity.
Qed.

Lemma lstrip_blank (w s : str) : blank w = true -> lstrip (w ++ s) = lstrip s.
Proof.
  intros H. induction w as [|c w IH]; [reflexivity|].
  cbn [blank forallb] in H. apply andb_true_iff in H. destruct H as [H1 H2].
  cbn [app lstrip]. rewrite H1. apply IH, H2.
Qed.

Lemma blank_rev (w : str) : blank w = true -> blank (rev w) = true.
Proof.
  unfold blank. rewrite !forallb_forall. intros H c Hc.
  apply H, in_rev. exact Hc.
Qed.

Lemma rstrip_blank (w s : str) : blank w = true -> rstrip (s ++ w) = rstrip s.
Proof.
  intros H. unfold rstrip. rewrite rev_app_distr.
  rewrite (lstrip_blank (rev w) (rev s) (blank_rev w H)). reflexivity.
Qed.

Lemma strip_group (before inner after : str) :
  blank before = true -> blank after = true ->
  strip (group before inner after) = "("%char :: inner ++ [")"%char].
Proof.
  intros Hb Ha. unfold strip, group. rewrite (lstrip_blank _ _ Hb).
  cbn [lstrip]. change (is_space "("%char) with false. cbv iota.
  replace ("("%char :: inner ++ ")"%char :: after)
    with (("("%char :: inner ++ [")"%char]) ++ after)
    by (cbn [app]; rewrite <- app_assoc; reflexivity).
  rewrite (rstrip_blank _ _ Ha).
  exact (rstrip_app_nonspace ("("%char :: inner) [] ")"%char eq_refl).
Qed.

Lemma depth_group (before inner after : str) :
  blank before = true -> blank after = true -> flat inner = true ->
  depth (group before inner after) = 0%Z.
Proof.
  intros Hb Ha Hi. unfold group. rewrite depth_app. cbn [depth].
  rewrite depth_app. cbn [depth].
  rewrite (depth_blank _ Hb), (depth_blank _ Ha), (flat_depth _ Hi).
  reflexivity.
Qed.

Lemma has_top_op_group (before inner after : str) :
  blank before = true -> blank after = true -> flat inner = true ->
  has_top_op 0 (group before inner after) = false.
Proof.
  intros Hb Ha Hi. unfold group. rewrite (has_top_op_blank _ _ _ Hb).
  cbn [has_top_op Ascii.eqb]. 
  change (has_top_op 0 ("("%char :: inner ++ ")"%char :: after))
    with (has_top_op 1 (inner ++ ")"%char :: after)).
  rewrite (has_top_op_flat 1 _ _ Hi) by lia.
  change (has_top_op 1 (")"%char :: after)) with (has_top_op 0 after).
  rewrite <- (app_nil_r after), (has_top_op_blank _ _ _ Ha). reflexivity.
Qed.


Lemma count_In (c : ascii) (s : str) : In c s -> (count c s <? 1)%nat = false.
Proof.
  intros H. apply Nat.ltb_ge. induction s as [|x s IH]; [destruct H|].
  cbn [count]. destruct H as [->|H].
  - rewrite Ascii.eqb_refl. lia.
  - specialize (IH H). lia.
Qed.

(** A flat chain in one pair of parentheses parses as the chain. *)
Lemma create_exp_tree_parenthesised (c : str) :
  flat c = true -> has_op c = true ->
  create_exp_tree ("("%char :: c ++ [")"%char]) = create_exp_tree c.
Proof.
  intros Hf Hop.
  rewrite <- (slice_inner "("%char ")"%char c) at 2.
  apply create_exp_tree_inner.
  - apply has_op_In in Hop. destruct Hop as (x & Hx & Ox).
    apply has_op_In. exists x. split; [|exact Ox].
    right. apply in_or_app. left. exact Hx.
  - change (has_top_op 0 ("("%char :: c ++ [")"%char]))
      with (has_top_op 1 (c ++ [")"%char])).
    rewrite (has_top_op_flat 1 _ _ Hf) by lia. reflexivity.
  - rewrite (count_In "("%char); [reflexivity|]. left. reflexivity.
Qed.

(** X3: two parenthesised flat chains joined by an operator: the operator
    is the root and the children are the trees of the two chains. *)
Lemma create_exp_tree_groups (w1 c1 w2 w3 c2 w4 : str) (op : ascii) :
  blank w1 = true -> blank w2 = true -> blank w3 = true -> blank w4 = true ->
  flat c1 = true -> has_op c1 = true ->
  flat c2 = true -> has_op c2 = true ->
  is_op op = true ->
  exists t1 t2,
    create_exp_tree c1 = Ok t1 /\
    create_exp_tree c2 = Ok t2 /\
    create_exp_tree (group w1 c1 w2 ++ op :: group w3 c2 w4)
    = Ok (mkNode [op] (Some t1) (Some t2)).
Proof.
  intros B1 B2 B3 B4 F1 O1 F2 O2 Hop.
  destruct (create_exp_tree_top_split (group w1 c1 w2) (group w3 c2 w4) op)
    as (t1 & t2 & E1 & E2 & E).
  - exact Hop.
  - apply depth_group; assumption.
  - apply has_top_op_group; assumption.
  - rewrite (count_In "("%char); [reflexivity|].
    apply in_or_app. left. unfold group. apply in_or_app. right. left.
    reflexivity.
  - rewrite strip_group, create_exp_tree_parenthesised in E1 by assumption.
    rewrite strip_group, create_exp_tree_parenthesised in E2 by assumption.
    exists t1, t2. auto.
Qed.

(* ================================================================= *)
(** ** [generate_node] and the branch that calls it *)

Lemma index_first (c : ascii) (a b : str) :
  ~ In c a -> index c (a ++ c :: b) = Some (length a).
Proof.
  induction a as [|x a IH]; intros H; cbn [index app length].
  - rewrite Ascii.eqb_refl. reflexivity.
  - destruct (Ascii.eqb x c) eqn:E.
    + apply Ascii.eqb_eq in E. subst. exfalso. apply H. left. reflexivity.
    + rewrite IH; [reflexivity|]. intros N. apply H. right. exact N.
Qed.

Lemma strip_op (op : ascii) : is_op op = true -> strip [op] = [op].
Proof.
  unfold is_op. intros H. apply orb_true_iff in H.
  destruct H as [H|H]; apply Ascii.eqb_eq in H; subst; reflexivity.
Qed.

(** [generate_node] splits at the first [|], or without any [|] at the
    first [&]; what stands on each side becomes a leaf as it is, but
    for the whitespace at its ends, whatever operators it holds. *)
Lemma generate_node_split (a b : str) (op : ascii) :
  is_op op = true -> has_op a = false ->
  (op = "&"%char -> ~ In "|"%char b) ->
  generate_node (a ++ op :: b)
  = Ok (mkNode [op] (Some (new_node (strip a))) (Some (new_node (strip b)))).
Proof.
  intros Hop Ha Hb.
  assert (Na : forall c, is_op c = true -> ~ In c a).
  { intros c Hc N. rewrite (proj1 (has_op_false_In a) Ha c N) in Hc.
    discriminate. }
  unfold generate_node. change (lit "|") with ["|"%char].
  change (lit "&") with ["&"%char].
  assert (S : char_at (a ++ op :: b) (length a) = Ok op).
  { unfold char_at. rewrite nth_error_middle. reflexivity. }
  unfold is_op in Hop. apply orb_true_iff in Hop.
  destruct Hop as [Hop|Hop]; apply Ascii.eqb_eq in Hop; subst op.
  - replace (occurs ["|"%char] (a ++ "|"%char :: b)) with true
      by (symmetry; apply occurs_char_In, in_elt).
    rewrite index_first by (apply Na; reflexivity).
    rewrite S. cbn [bind].
    rewrite slice_to, slice_from, firstn_middle, skipn_middle. reflexivity.
  - replace (occurs ["|"%char] (a ++ "&"%char :: b)) with false.
    2:{ symmetry. apply occurs_char_false. intros N.
        apply in_app_or in N. destruct N as [N|[N|N]].
        - exact (Na "|"%char eq_refl N).
        - discriminate.
        - exact (Hb eq_refl N). }
    replace (occurs ["&"%char] (a ++ "&"%char :: b)) with true
      by (symmetry; apply occurs_char_In, in_elt).
    rewrite index_first by (apply Na; reflexivity).
    rewrite S. cbn [bind].
    rewrite slice_to, slice_from, firstn_middle, skipn_middle. reflexivity.
Qed.

Lemma generate_node_no_operator (exp : str) :
  has_op exp = false -> generate_node exp = Raise TypeError.
Proof.
  unfold has_op, generate_node. intros H. apply orb_false_iff in H.
  destruct H as [-> ->]. reflexivity.
Qed.




(* ================================================================= *)
(** ** Unknown query types and the console *)

Lemma lookup_None (k : str) (d : dict) :
  mem k (keys d) = false -> lookup k d = None.
Proof.
  unfold mem, keys. induction d as [|[k' v] d IH]; intros H; [reflexivity|].
  cbn [map fst existsb] in H. apply orb_false_iff in H. destruct H as [H1 H2].
  cbn [lookup]. rewrite H1. apply IH, H2.
Qed.

(** X6: [create_query] does not normalise the type: with a type that is no
    key of [BASE_QUERIES], in whatever world, it raises [KeyError]. *)
Lemma create_query_unknown (w : World) (root : Node) (k : str) :
  mem k (keys (BASE_QUERIES w)) = false ->
  create_query w root k = Raise KeyError.
Proof.
  intros H. unfold create_query, getitem. rewrite (lookup_None _ _ H).
  reflexivity.
Qed.

Lemma generate_query_stdout (exp query_type : str) (w : World) :
  stdout (snd (generate_query exp query_type w))
  = stdout w ++ printed w (exp, query_type).
Proof.
  unfold printed, generate_query. cbn [fst snd].
  destruct (mem (upper query_type) (keys (BASE_QUERIES w))); cbn [negb].
  - destruct (create_exp_tree _); [|symmetry; apply app_nil_r].
    destruct (create_query _ _ _); [reflexivity|symmetry; apply app_nil_r].
  - symmetry. apply app_nil_r.
Qed.

Lemma printed_globals (w w' : World) (c : str * str) :
  globals w = globals w' -> printed w c = printed w' c.
Proof.
  intros G. unfold printed.
  rewrite (generate_query_reads_globals (fst c) (snd c) w w' G).
  replace (BASE_QUERIES w) with (BASE_QUERIES w');
    [reflexivity|unfold globals in G; congruence].
Qed.

(** X7: after any sequence of calls the console holds what it held
    before and then, in the order of the calls, the query of every call
    that returned one for a known type, each as that call returns it in
    the first world; a call with an unknown type and a call that raises
    print nothing. *)
Theorem run_stdout (calls : list (str * str)) (w : World) :
  stdout (run calls w) = stdout w ++ flat_map (printed w) calls.
Proof.
  revert w. induction calls as [|[exp query_type] calls IH]; intros w.
  - symmetry. apply app_nil_r.
  - cbn [run fold_left flat_map fst snd]. fold (run calls).
    rewrite IH, generate_query_stdout, <- app_assoc. f_equal. f_equal.
    apply flat_map_ext. intros c. apply printed_globals.
    apply generate_query_globals.
Qed.

(* ================================================================= *)
(** ** The values of a tree are made of characters of the expression *)

Lemma incl_strip (s : str) : incl (strip s) s.
Proof. intros c. apply In_strip. Qed.

Lemma incl_slice (s : str) (start stop : option Z) :
  incl (slice s start stop) s.
Proof.
  intros c H. unfold slice in H.
  match type of H with In _ (firstn ?n (skipn ?m _)) =>
    rewrite <- (firstn_skipn m s); apply in_or_app; right;
    rewrite <- (firstn_skipn n (skipn m s)); apply in_or_app; left; exact H
  end.
Qed.

Lemma incl_unparen (s : str) :
  incl (replace (lit ")") (lit "") (replace (lit "(") (lit "") s)) s.
Proof.
  intros c H. change (lit ")") with [")"%char] in H.
  change (lit "(") with ["("%char] in H.
  apply In_replace_char in H. destruct H as [[H _]|[_ []]].
  apply In_replace_char in H. destruct H as [[H _]|[_ []]]. exact H.
Qed.

Lemma drawn_from_incl (s exp : str) (t : Node) :
  incl s exp -> drawn_from s t -> drawn_from exp t.
Proof.
  intros I D n Hn. eapply incl_tran; [apply D, Hn|exact I].
Qed.

Lemma drawn_from_leaf (exp v : str) : incl v exp -> drawn_from exp (new_node v).
Proof. intros I n [<-|[]]. exact I. Qed.

Lemma drawn_from_node (exp v : str) (l r : Node) :
  incl v exp -> drawn_from exp l -> drawn_from exp r ->
  drawn_from exp (mkNode v (Some l) (Some r)).
Proof.
  intros I L R n Hn. cbn [nodes] in Hn. destruct Hn as [<-|Hn]; [exact I|].
  apply in_app_or in Hn. destruct Hn as [Hn|Hn]; [apply L|apply R]; exact Hn.
Qed.

Lemma char_at_In (exp : str) (i : nat) (c : ascii) :
  char_at exp i = Ok c -> In c exp.
Proof.
  intros H. apply char_at_Some in H. destruct H as [H _].
  eapply nth_error_In, H.
Qed.

Lemma generate_node_drawn (exp : str) (t : Node) :
  generate_node exp = Ok t -> drawn_from exp t.
Proof.
  unfold generate_node.
  destruct (if occurs (lit "|") exp then index "|"%char exp
            else if occurs (lit "&") exp then index "&"%char exp else None)
    as [idx|]; [|discriminate].
  destruct (char_at exp idx) as [c|e] eqn:E; cbn [bind]; [|discriminate].
  intros [= <-]. apply char_at_In in E. apply drawn_from_node.
  - eapply incl_tran; [apply incl_strip|]. intros x [<-|[]]. exact E.
  - apply drawn_from_leaf. eapply incl_tran; [apply incl_strip|apply incl_slice].
  - apply drawn_from_leaf. eapply incl_tran; [apply incl_strip|apply incl_slice].
Qed.

Lemma for_each_inv {A S : Type} (body : S -> A -> result S) (I : S -> Prop)
      (xs : list A) :
  (forall st x st', I st -> body st x = Ok st' -> I st') ->
  forall st st', I st -> for_each body xs st = Ok st' -> I st'.
Proof.
  intros Hb. induction xs as [|x xs IH]; intros st st' Hst E.
  - injection E as <-. exact Hst.
  - cbn [for_each] in E. destruct (body st x) as [st1|e] eqn:E1;
      cbn [bind] in E; [|discriminate].
    exact (IH st1 st' (Hb st x st1 Hst E1) E).
Qed.

Lemma scan_step_drawn (rec : str -> result Node) (exp : str)
      (st st' : scan_state) (i : nat) :
  (forall s t, rec s = Ok t -> drawn_from s t) ->
  match snd st with Some n => drawn_from exp n | None => True end ->
  scan_step rec exp st i = Ok st' ->
  match snd st' with Some n => drawn_from exp n | None => True end.
Proof.
  intros Hrec Hst. destruct st as [lopen node]. unfold scan_step.
  destruct (char_at exp i) as [c|e] eqn:E; cbn [bind]; [|discriminate].
  destruct (Ascii.eqb c "("); [intros [= <-]; exact Hst|].
  destruct (Ascii.eqb c ")"); [intros [= <-]; exact Hst|].
  destruct (is_op c && (lopen =? 0)%Z); [|intros [= <-]; exact Hst].
  destruct (rec (strip (slice exp None (Some (Z.of_nat i))))) as [tl|e] eqn:El;
    cbn [bind]; [|discriminate].
  destruct (rec (strip (slice exp (Some (Z.of_nat i + 1)%Z) None)))
    as [tr|e] eqn:Er; cbn [bind]; [|discriminate].
  intros [= <-]. cbn [snd]. apply char_at_In in E. apply drawn_from_node.
  - intros x [<-|[]]. exact E.
  - eapply drawn_from_incl; [|apply Hrec, El].
    eapply incl_tran; [apply incl_strip|apply incl_slice].
  - eapply drawn_from_incl; [|apply Hrec, Er].
    eapply incl_tran; [apply incl_strip|apply incl_slice].
Qed.

Lemma create_exp_tree_within_drawn (budget : nat) :
  forall exp t, create_exp_tree_within budget exp = Ok t -> drawn_from exp t.
Proof.
  induction budget as [|budget IH]; intros exp t; [discriminate|].
  cbn [create_exp_tree_within].
  destruct (negb _ && negb _).
  { intros [= <-]. apply drawn_from_leaf, incl_refl. }
  destruct (_ && _).
  { intros E. apply generate_node_drawn in E.
    eapply drawn_from_incl; [apply incl_unparen|exact E]. }
  destruct (for_each _ _ _) as [st|e] eqn:E; cbn [bind]; [|discriminate].
  assert (Hst : match snd st with
                | Some n => drawn_from exp n | None => True end).
  { apply (for_each_inv (scan_step (create_exp_tree_within budget) exp)
             (fun st => match snd st with
                        | Some n => drawn_from exp n | None => True end)
             (seq 0 (length exp))) with (st := (0%Z, @None Node));
      [|exact I|exact E].
    intros st0 x st1 H0 E0. exact (scan_step_drawn _ exp st0 st1 x IH H0 E0). }
  destruct (snd st) as [node|].
  - intros [= <-]. exact Hst.
  - intros E'. eapply drawn_from_incl; [apply incl_slice|apply IH, E'].
Qed.

(* ================================================================= *)
(** ** Replacing in the text or renaming in the tree *)

Lemma orm_commas_app (a b : str) :
  orm_commas (a ++ b) = orm_commas a ++ orm_commas b.
Proof.
  unfold orm_commas. change (lit "&") with ["&"%char].
  apply replace_char_app.
Qed.

Lemma orm_commas_plain (v : str) : has_op v = false -> orm_commas v = v.
Proof. intros H. apply (replace_op_free "&"%char _ v eq_refl H). Qed.

Lemma es_keywords_app (a b : str) :
  es_keywords (a ++ b) = es_keywords a ++ es_keywords b.
Proof.
  unfold es_keywords. change (lit "&") with ["&"%char].
  change (lit "|") with ["|"%char]. rewrite !replace_char_app. reflexivity.
Qed.

Lemma es_keywords_plain (v : str) : has_op v = false -> es_keywords v = v.
Proof.
  intros H. unfold es_keywords. change (lit "&") with ["&"%char].
  change (lit "|") with ["|"%char].
  rewrite (replace_op_free "|"%char _ v eq_refl H).
  apply (replace_op_free "&"%char _ v eq_refl H).
Qed.

Lemma well_formed_inv (v : str) (l r : Node) :
  well_formed (mkNode v (Some l) (Some r)) = true ->
  (v = lit "|" \/ v = lit "&")
  /\ well_formed l = true /\ well_formed r = true.
Proof.
  cbn [well_formed]. intros W. apply andb_true_iff in W. destruct W as [W Wr].
  apply andb_true_iff in W. destruct W as [Wv Wl].
  apply orb_true_iff in Wv. rewrite !str_eqb_eq in Wv. auto.
Qed.

Lemma orm_commas_inorder_orm :
  forall t, well_formed t = true -> plain_leaves t = true ->
            orm_commas (inorder_orm t) = inorder_orm (rename orm_symbol t).
Proof.
  fix IH 1. intros [v [l|] [r|]] W P; try discriminate W.
  - apply well_formed_inv in W. destruct W as (Wv & Wl & Wr).
    cbn [plain_leaves] in P. apply andb_true_iff in P. destruct P as [Pl Pr].
    cbn [inorder_orm rename option_map fmt].
    rewrite !orm_commas_app, (IH l Wl Pl), (IH r Wr Pr).
    destruct Wv as [-> | ->]; reflexivity.
  - cbn [plain_leaves] in P. apply negb_true_iff in P.
    cbn [inorder_orm rename]. rewrite !orm_commas_app, (orm_commas_plain v P).
    reflexivity.
Qed.

Lemma sql_keywords_preorder :
  forall t, well_formed t = true -> plain_leaves t = true ->
            sql_keywords (preorder t) = preorder (rename sql_keyword t).
Proof.
  fix IH 1. intros [v [l|] [r|]] W P; try discriminate W.
  - apply well_formed_inv in W. destruct W as (Wv & Wl & Wr).
    cbn [plain_leaves] in P. apply andb_true_iff in P. destruct P as [Pl Pr].
    cbn [preorder rename option_map fmt].
    rewrite !sql_keywords_app, (IH l Wl Pl), (IH r Wr Pr).
    destruct Wv as [-> | ->]; reflexivity.
  - cbn [plain_leaves] in P. apply negb_true_iff in P.
    cbn [preorder rename]. rewrite !sql_keywords_app, (sql_keywords_plain v P).
    reflexivity.
Qed.

Lemma es_keywords_preorder_elasticsearch :
  forall t, well_formed t = true -> plain_leaves t = true ->
            es_keywords (preorder_elasticsearch t)
            = preorder_elasticsearch (rename es_keyword t).
Proof.
  fix IH 1. intros [v [l|] [r|]] W P; try discriminate W.
  - apply well_formed_inv in W. destruct W as (Wv & Wl & Wr).
    cbn [plain_leaves] in P. apply andb_true_iff in P. destruct P as [Pl Pr].
    cbn [preorder_elasticsearch rename option_map fmt].
    rewrite !es_keywords_app, (IH l Wl Pl), (IH r Wr Pr).
    destruct Wv as [-> | ->]; reflexivity.
  - cbn [plain_leaves] in P. apply negb_true_iff in P.
    cbn [preorder_elasticsearch rename].
    rewrite !es_keywords_app, (es_keywords_plain v P). reflexivity.
Qed.

(** X11: for a well-formed tree with plain leaves, the replacements after
    the traversal give the text of the traversal of the tree with its
    operator symbols renamed: [&] to a comma for ORM, to [AND] and [OR]
    for MongoDB, to the quoted [MUST] and [SHOULD] for ElasticSearch. *)
Lemma create_query_renamed (out : list str) (t : Node) :
  well_formed t = true -> plain_leaves t = true ->
  create_query (module_world out) t (lit "ORM")
  = Ok (inorder_orm (rename orm_symbol t))
  /\ create_query (module_world out) t (lit "MONGODB")
     = Ok (lit "{" ++ preorder (rename sql_keyword t) ++ lit "}")
  /\ create_query (module_world out) t (lit "ELASTICSEARCH")
     = Ok (quoted " `query`: "
             ++ preorder_elasticsearch (rename es_keyword t)).
Proof.
  intros W P. unfold create_query. repeat split.
  - change (str_eqb (lit "ORM") (lit "ORM")) with true. cbv iota.
    fold (orm_commas (inorder_orm t)). rewrite (orm_commas_inorder_orm t W P).
    change (getitem (BASE_QUERIES (module_world out)) (lit "ORM"))
      with (Ok (lit "") : result str).
    change (getitem (END_QUERIES (module_world out)) (lit "ORM"))
      with (Ok (lit "") : result str).
    cbn [bind]. rewrite app_nil_r. reflexivity.
  - change (str_eqb (lit "MONGODB") (lit "ORM")) with false.
    change (str_eqb (lit "MONGODB") (lit "ELASTICSEARCH")) with false.
    change (str_eqb (lit "MONGODB") (lit "SQL")) with false.
    change (str_eqb (lit "MONGODB") (lit "MONGODB")) with true. cbv iota.
    fold (sql_keywords (preorder t)). rewrite (sql_keywords_preorder t W P).
    reflexivity.
  - change (str_eqb (lit "ELASTICSEARCH") (lit "ORM")) with false.
    change (str_eqb (lit "ELASTICSEARCH") (lit "ELASTICSEARCH")) with true.
    cbv iota. fold (es_keywords (preorder_elasticsearch t)).
    rewrite (es_keywords_preorder_elasticsearch t W P).
    change (getitem (BASE_QUERIES (module_world out)) (lit "ELASTICSEARCH"))
      with (Ok (quoted " `query`: ") : result str).
    change (getitem (END_QUERIES (module_world out)) (lit "ELASTICSEARCH"))
      with (Ok (lit "") : result str).
    cbn [bind]. rewrite app_nil_r. reflexivity.
Qed.

(* ================================================================= *)
(** ** Two words joined by a keyword *)

Lemma starts_with_In (k s : str) :
  starts_with k s = true -> forall c, In c k -> In c s.
Proof.
  revert s. induction k as [|x k IH]; intros s H c Hc; [destruct Hc|].
  destruct s as [|y s]; [discriminate|]. cbn [starts_with] in H.
  apply andb_true_iff in H. destruct H as [H1 H2].
  apply Ascii.eqb_eq in H1. subst y. destruct Hc as [<-|Hc].
  - left. reflexivity.
  - right. exact (IH s H2 c Hc).
Qed.

Lemma starts_with_app (k rest : str) : starts_with k (k ++ rest) = true.
Proof.
  induction k as [|x k IH]; [reflexivity|]. cbn [starts_with app].
  rewrite Ascii.eqb_refl. exact IH.
Qed.

Lemma occurs_In (k s : str) :
  occurs k s = true -> forall c, In c k -> In c s.
Proof.
  induction s as [|y s IH]; intros H c Hc.
  - cbn [occurs] in H. rewrite orb_false_r in H.
    exact (starts_with_In k [] H c Hc).
  - cbn [occurs] in H. apply orb_true_iff in H. destruct H as [H|H].
    + exact (starts_with_In k _ H c Hc).
    + right. exact (IH H c Hc).
Qed.

(** A string without the first character of [old] is passed over. *)
Lemma replace_from_skip (k0 : ascii) (k' new a rest : str) :
  ~ In k0 a ->
  replace_from (k0 :: k') new 0 (a ++ rest)
  = a ++ replace_from (k0 :: k') new 0 rest.
Proof.
  induction a as [|x a IH]; intros H; [reflexivity|].
  cbn [app replace_from starts_with].
  destruct (Ascii.eqb k0 x) eqn:E.
  - apply Ascii.eqb_eq in E. subst. exfalso. apply H. left. reflexivity.
  - cbn [andb]. f_equal. apply IH. intros N. apply H. right. exact N.
Qed.

Lemma replace_from_drop (k new x rest : str) :
  replace_from k new (length x) (x ++ rest) = replace_from k new 0 rest.
Proof. induction x as [|c x IH]; [reflexivity|exact IH]. Qed.

Lemma replace_from_match (k0 : ascii) (k' new rest : str) :
  replace_from (k0 :: k') new 0 ((k0 :: k') ++ rest)
  = new ++ replace_from (k0 :: k') new 0 rest.
Proof.
  cbn [app replace_from]. 
  change (starts_with (k0 :: k') (k0 :: k' ++ rest))
    with (starts_with (k0 :: k') ((k0 :: k') ++ rest)).
  rewrite starts_with_app.
  replace (length (k0 :: k') - 1) with (length k') by (cbn [length]; lia).
  rewrite replace_from_drop. reflexivity.
Qed.

Lemma replace_from_absent (k0 : ascii) (k' new s : str) :
  ~ In k0 s -> replace_from (k0 :: k') new 0 s = s.
Proof.
  intros H. rewrite <- (app_nil_r s) at 1.
  rewrite (replace_from_skip k0 k' new s [] H). apply app_nil_r.
Qed.

Section Keyword.

Variables a b : str.
Hypothesis a_no_space : ~ In " "%char a.
Hypothesis b_no_space : ~ In " "%char b.

(** A keyword other than the one looked for stays. *)
Lemma replace_keyword_other (k' core new : str) :
  ~ In " "%char core -> In " "%char k' ->
  starts_with k' (core ++ " "%char :: b) = false ->
  replace (" "%char :: k') new (a ++ " "%char :: core ++ " "%char :: b)
  = a ++ " "%char :: core ++ " "%char :: b.
Proof.
  intros Hc Hk Hs. unfold replace.
  rewrite (replace_from_skip " "%char k' new a _ a_no_space). f_equal.
  cbn [replace_from starts_with]. rewrite Ascii.eqb_refl, Hs. cbn [andb].
  f_equal. rewrite (replace_from_skip " "%char k' new core _ Hc). f_equal.
  cbn [replace_from starts_with]. rewrite Ascii.eqb_refl. cbn [andb].
  destruct (starts_with k' b) eqn:E.
  - exfalso. exact (b_no_space (starts_with_In k' b E " "%char Hk)).
  - f_equal. apply replace_from_absent, b_no_space.
Qed.

(** The keyword looked for is replaced. *)
Lemma replace_keyword_same (core new : str) :
  replace (" "%char :: core ++ [" "%char]) new (a ++ " "%char :: core ++ " "%char :: b)
  = a ++ new ++ b.
Proof.
  unfold replace.
  rewrite (replace_from_skip " "%char (core ++ [" "%char]) new a _ a_no_space). f_equal.
  replace (" "%char :: core ++ " "%char :: b) with ((" "%char :: core ++ [" "%char]) ++ b)
    by (cbn [app]; rewrite <- app_assoc; reflexivity).
  rewrite replace_from_match. f_equal.
  apply replace_from_absent, b_no_space.
Qed.

End Keyword.

Lemma flat_app (x y : str) : flat (x ++ y) = flat x && flat y.
Proof.
  destruct (flat x) eqn:Ex, (flat y) eqn:Ey; cbn [andb].
  - apply flat_iff. intros c Hc. apply in_app_or in Hc.
    destruct Hc as [Hc|Hc];
      [exact (proj1 (flat_iff x) Ex c Hc)|exact (proj1 (flat_iff y) Ey c Hc)].
  - destruct (flat (x ++ y)) eqn:E; [|reflexivity]. rewrite <- Ey.
    symmetry. apply flat_iff. intros c Hc.
    apply (proj1 (flat_iff _) E). apply in_or_app. right. exact Hc.
  - destruct (flat (x ++ y)) eqn:E; [|reflexivity]. rewrite <- Ex.
    symmetry. apply flat_iff. intros c Hc.
    apply (proj1 (flat_iff _) E). apply in_or_app. left. exact Hc.
  - destruct (flat (x ++ y)) eqn:E; [|reflexivity]. rewrite <- Ex.
    symmetry. apply flat_iff. intros c Hc.
    apply (proj1 (flat_iff _) E). apply in_or_app. left. exact Hc.
Qed.

Lemma word_char_inv (c : ascii) :
  word_char c = true ->
  c <> " "%char /\ delta c = 0%Z /\ c <> dq_char /\ is_op c = false.
Proof.
  unfold word_char, delta. intros H. apply negb_true_iff in H.
  rewrite !orb_false_iff in H. destruct H as ((((H1 & H2) & H3) & H4) & H5).
  rewrite H2, H3. repeat split; try assumption.
  - intros ->. discriminate.
  - intros ->. discriminate.
Qed.

Lemma word_inv (s : str) :
  word s = true ->
  ~ In " "%char s /\ flat s = true /\ ~ In dq_char s /\ has_op s = false.
Proof.
  unfold word. rewrite forallb_forall. intros H. repeat split.
  - intros N. exact (proj1 (word_char_inv _ (H _ N)) eq_refl).
  - apply flat_iff. intros c Hc. apply (word_char_inv _ (H c Hc)).
  - intros N.
    exact (proj1 (proj2 (proj2 (word_char_inv _ (H _ N)))) eq_refl).
  - apply has_op_false_In. intros c Hc. apply (word_char_inv _ (H c Hc)).
Qed.

Lemma pad_parens_flat (s : str) : flat s = true -> pad_parens s = s.
Proof.
  intros H. unfold flat in H. apply andb_true_iff in H. destruct H as [H1 H2].
  apply negb_true_iff in H1. apply negb_true_iff in H2. unfold pad_parens.
  rewrite (replace_absent (lit "(") _ s); [|discriminate|exact H1].
  apply replace_absent; [discriminate|exact H2].
Qed.

Lemma replace_no_first (k0 : ascii) (k' new s : str) :
  ~ In k0 s -> replace (k0 :: k') new s = s.
Proof. intros H. apply replace_from_absent, H. Qed.

Lemma not_In_joined (c x : ascii) (a b : str) :
  ~ In c a -> ~ In c b -> c <> x -> ~ In c (a ++ x :: b).
Proof.
  intros Ha Hb Hx N. apply in_app_or in N. destruct N as [N|[N|N]]; auto.
Qed.

(** Replacements that find nothing in [a ++ x :: b], innermost first. *)
Ltac pass_word x :=
  repeat match goal with
  | S : forall y, " "%char <> y -> ~ In " "%char _,
    Q : forall y, dq_char <> y -> ~ In dq_char _
    |- context [replace (?k0 :: ?k') ?new (?a ++ x :: ?b)] =>
      rewrite (replace_no_first k0 k' new (a ++ x :: b))
        by (first [apply S|apply Q]; discriminate)
  end.

(** The text [a kw b], with one space on each side of the keyword and
    two words around, is normalised to [a], the symbol of the keyword,
    and [b]. *)
Lemma normalise_keyword (kw : str) (op : ascii) (a b : str) :
  In (kw, op) keywords -> word a = true -> word b = true ->
  replace_items value_dict (a ++ " "%char :: kw ++ " "%char :: b)
  = a ++ op :: b.
Proof.
  intros K Wa Wb.
  destruct (word_inv a Wa) as (Sa & Fa & Qa & _).
  destruct (word_inv b Wb) as (Sb & Fb & Qb & _).
  assert (F : flat (a ++ " "%char :: kw ++ " "%char :: b) = true).
  { rewrite flat_app, Fa. cbn [andb].
    change (" "%char :: kw ++ " "%char :: b)
      with ((" "%char :: kw) ++ " "%char :: b).
    rewrite flat_app.
    change (" "%char :: b) with ([" "%char] ++ b). rewrite flat_app, Fb.
    unfold keywords in K. cbn [In] in K.
    destruct K as [K|[K|[K|[K|[]]]]];
      apply pair_equal_spec in K; destruct K as [<- <-];
      reflexivity. }
  assert (S : forall x, " "%char <> x -> ~ In " "%char (a ++ x :: b)).
  { intros x Hx. apply not_In_joined; assumption. }
  assert (Q : forall x, dq_char <> x -> ~ In dq_char (a ++ x :: b)).
  { intros x Hx. apply not_In_joined; assumption. }
  rewrite replace_items_value_dict, (pad_parens_flat _ F).
  change dq with [dq_char].
  change (lit " OR ") with (" "%char :: lit "OR" ++ [" "%char]).
  change (lit " or ") with (" "%char :: lit "or" ++ [" "%char]).
  change (lit " AND ") with (" "%char :: lit "AND" ++ [" "%char]).
  change (lit " and ") with (" "%char :: lit "and" ++ [" "%char]).
  unfold keywords in K. cbn [In] in K.
    destruct K as [K|[K|[K|[K|[]]]]];
      apply pair_equal_spec in K; destruct K as [<- <-].
  - rewrite (replace_keyword_same a b Sa Sb (lit "OR") (lit "|")).
    change (a ++ lit "|" ++ b) with (a ++ "|"%char :: b).
    pass_word "|"%char. reflexivity.
  - rewrite (replace_keyword_other a b Sa Sb (lit "OR" ++ [" "%char])
               (lit "or") (lit "|"));
      [|intros [N|[N|[]]]; discriminate|right; right; left; reflexivity
       |reflexivity].
    rewrite (replace_keyword_same a b Sa Sb (lit "or") (lit "|")).
    change (a ++ lit "|" ++ b) with (a ++ "|"%char :: b).
    pass_word "|"%char. reflexivity.
  - rewrite (replace_keyword_other a b Sa Sb (lit "OR" ++ [" "%char])
               (lit "AND") (lit "|"));
      [|intros [N|[N|[N|[]]]]; discriminate|right; right; left; reflexivity
       |reflexivity].
    rewrite (replace_keyword_other a b Sa Sb (lit "or" ++ [" "%char])
               (lit "AND") (lit "|"));
      [|intros [N|[N|[N|[]]]]; discriminate|right; right; left; reflexivity
       |reflexivity].
    rewrite (replace_keyword_same a b Sa Sb (lit "AND") (lit "&")).
    change (a ++ lit "&" ++ b) with (a ++ "&"%char :: b).
    pass_word "&"%char. reflexivity.
  - rewrite (replace_keyword_other a b Sa Sb (lit "OR" ++ [" "%char])
               (lit "and") (lit "|"));
      [|intros [N|[N|[N|[]]]]; discriminate|right; right; left; reflexivity
       |reflexivity].
    rewrite (replace_keyword_other a b Sa Sb (lit "or" ++ [" "%char])
               (lit "and") (lit "|"));
      [|intros [N|[N|[N|[]]]]; discriminate|right; right; left; reflexivity
       |reflexivity].
    rewrite (replace_keyword_other a b Sa Sb (lit "AND" ++ [" "%char])
               (lit "and") (lit "&"));
      [|intros [N|[N|[N|[]]]]; discriminate
       |right; right; right; left; reflexivity|reflexivity].
    rewrite (replace_keyword_same a b Sa Sb (lit "and") (lit "&")).
    change (a ++ lit "&" ++ b) with (a ++ "&"%char :: b).
    pass_word "&"%char. reflexivity.
Qed.

(** X9: two words joined by one of the four keywords give a tree of depth
    1: the operator over the two words as leaves. *)
Lemma create_exp_tree_keyword (kw : str) (op : ascii) (a b : str) :
  In (kw, op) keywords -> word a = true -> word b = true ->
  create_exp_tree
    (replace_items value_dict (a ++ " "%char :: kw ++ " "%char :: b))
  = Ok (mkNode [op] (Some (new_node (strip a))) (Some (new_node (strip b)))).
Proof.
  intros K Wa Wb. rewrite (normalise_keyword kw op a b K Wa Wb).
  destruct (word_inv a Wa) as (_ & Fa & _ & Oa).
  destruct (word_inv b Wb) as (_ & Fb & _ & Ob).
  assert (Hop : is_op op = true).
  { unfold keywords in K. cbn [In] in K.
    destruct K as [K|[K|[K|[K|[]]]]];
      apply pair_equal_spec in K; destruct K as [<- <-];
      reflexivity. }
  destruct (split_at_last_operator a b op) as (tl & El & E).
  - exact Hop.
  - apply flat_depth, Fa.
  - exact Ob.
  - apply flat_second_test. rewrite flat_app, Fa.
    change (op :: b) with ([op] ++ b). rewrite flat_app, Fb.
    unfold keywords in K. cbn [In] in K.
    destruct K as [K|[K|[K|[K|[]]]]];
      apply pair_equal_spec in K; destruct K as [<- <-];
      reflexivity.
  - rewrite (create_exp_tree_leaf _ (has_op_strip _ Oa)) in El.
    injection El as <-. exact E.
Qed.

(* ================================================================= *)
(** ** Only the exact forms become operators *)

Lemma replace_from_skipn (old new : str) (t : str) :
  forall k, replace_from old new k t = replace_from old new 0 (skipn k t).
Proof.
  induction t as [|c t IH]; intros [|k]; try reflexivity.
  cbn [replace_from skipn]. apply IH.
Qed.

Lemma replace_match (f : ascii) (old' new q : str) :
  starts_with (f :: old') q = true ->
  replace (f :: old') new q
  = new ++ replace (f :: old') new (skipn (length (f :: old')) q).
Proof.
  intros H. destruct q as [|c q]; [discriminate|]. unfold replace.
  cbn [replace_from]. rewrite H, replace_from_skipn. cbn [length skipn].
  replace (S (length old') - 1) with (length old') by lia. reflexivity.
Qed.

Lemma replace_no_match (f : ascii) (old' new q : str) (c : ascii) :
  starts_with (f :: old') (c :: q) = false ->
  replace (f :: old') new (c :: q) = c :: replace (f :: old') new q.
Proof. intros H. unfold replace. cbn [replace_from]. rewrite H. reflexivity. Qed.

Lemma recognised_refl (p : str) : recognised p p.
Proof. induction p as [|c p IH]; constructor. exact IH. Qed.

Lemma keywords_op (kw : str) (op : ascii) :
  In (kw, op) keywords ->
  is_op op = true /\ has_op (" "%char :: kw ++ [" "%char]) = false.
Proof.
  unfold keywords. cbn [In]. intros [K|[K|[K|[K|[]]]]];
    apply pair_equal_spec in K; destruct K as [<- <-]; split; reflexivity.
Qed.

(** Where the text after the replacements so far begins with a form,
    the text before them begins with it too. *)
Lemma recognised_prefix (old : str) :
  forall p q, has_op old = false -> recognised p q ->
              starts_with old q = true ->
              exists p', p = old ++ p'
                         /\ recognised p' (skipn (length old) q).
Proof.
  induction old as [|x old IH]; intros p q Hold H S.
  - exists p. split; [reflexivity|exact H].
  - destruct q as [|c q]; [discriminate|]. cbn [starts_with] in S.
    apply andb_true_iff in S. destruct S as [S1 S2].
    apply Ascii.eqb_eq in S1. subst c.
    rewrite has_op_cons in Hold. apply orb_false_iff in Hold.
    destruct Hold as [Hx Hold].
    inversion H as [|c p1 q1 H1|kw op p1 q1 K H1]; subst.
    + destruct (IH p1 q Hold H1 S2) as (p' & -> & R).
      exists p'. split; [reflexivity|exact R].
    + rewrite (proj1 (keywords_op kw x K)) in Hx. discriminate.
Qed.

Lemma length_skipn_le (k : nat) (q : str) : length (skipn k q) <= length q.
Proof. rewrite length_skipn. lia. Qed.

(** Replacing one of the four forms keeps the relation to the text
    before the replacements. *)
Lemma recognised_replace (kw : str) (op : ascii) :
  In (kw, op) keywords ->
  forall n q p, length q <= n -> recognised p q ->
    recognised p (replace (" "%char :: kw ++ [" "%char]) [op] q).
Proof.
  intros K. induction n as [|n IH]; intros q p L H.
  - destruct q; [exact H|cbn in L; lia].
  - destruct q as [|c q]; [exact H|]. cbn [length] in L.
    destruct (starts_with (" "%char :: kw ++ [" "%char]) (c :: q)) eqn:S.
    + rewrite (replace_match _ _ _ _ S).
      destruct (recognised_prefix _ p (c :: q)
                  (proj2 (keywords_op kw op K)) H S) as (p' & -> & R).
      replace ((" "%char :: kw ++ [" "%char]) ++ p')
        with (" "%char :: kw ++ " "%char :: p')
        by (cbn [app]; rewrite <- app_assoc; reflexivity).
      cbn [app]. apply recognised_keyword; [exact K|].
      apply IH; [|exact R]. cbn [length skipn].
      etransitivity; [apply length_skipn_le|lia].
    + rewrite (replace_no_match _ _ _ _ _ S).
      inversion H as [|c1 p1 q1 H1|kw1 op1 p1 q1 K1 H1]; subst.
      * apply recognised_keep. apply IH; [lia|exact H1].
      * apply recognised_keyword; [exact K1|]. apply IH; [lia|exact H1].
Qed.

Lemma replace_delete (c : ascii) (s : str) :
  replace [c] (lit "") s = filter (fun x => negb (Ascii.eqb x c)) s.
Proof.
  rewrite replace_char. induction s as [|x s IH]; [reflexivity|].
  cbn [flat_map filter]. rewrite IH, (Ascii.eqb_sym x c).
  destruct (Ascii.eqb c x); reflexivity.
Qed.

(** The normalised text is the padded text with some exact forms
    turned into their symbols, and then without its double quotes. *)
Lemma replace_items_recognised (exp : str) :
  exists q,
    recognised (pad_parens exp) q
    /\ replace_items value_dict exp = unquoted q.
Proof.
  rewrite replace_items_value_dict. change dq with [dq_char].
  rewrite replace_delete. eexists. split; [|reflexivity].
  change (lit " OR ") with (" "%char :: lit "OR" ++ [" "%char]).
  change (lit " or ") with (" "%char :: lit "or" ++ [" "%char]).
  change (lit " AND ") with (" "%char :: lit "AND" ++ [" "%char]).
  change (lit " and ") with (" "%char :: lit "and" ++ [" "%char]).
  change (lit "|") with ["|"%char]. change (lit "&") with ["&"%char].
  eapply recognised_replace; [right; right; right; left; reflexivity
                             |apply le_n|].
  eapply recognised_replace; [right; right; left; reflexivity|apply le_n|].
  eapply recognised_replace; [right; left; reflexivity|apply le_n|].
  eapply recognised_replace; [left; reflexivity|apply le_n|].
  apply recognised_refl.
Qed.

Section KeywordText.

Variables a b : str.
Hypothesis a_no_space : ~ In " "%char a.

(** A keyword other than the one looked for stays. *)
Lemma replace_other_keyword (k' core new : str) :
  ~ In " "%char core ->
  starts_with k' (core ++ " "%char :: b) = false ->
  occurs (" "%char :: k') (" "%char :: b) = false ->
  replace (" "%char :: k') new (a ++ " "%char :: core ++ " "%char :: b)
  = a ++ " "%char :: core ++ " "%char :: b.
Proof.
  intros Hc Hs Hb. unfold replace.
  rewrite (replace_from_skip " "%char k' new a _ a_no_space). f_equal.
  cbn [replace_from starts_with]. rewrite Ascii.eqb_refl, Hs. cbn [andb].
  f_equal. rewrite (replace_from_skip " "%char k' new core _ Hc). f_equal.
  cbn [occurs] in Hb. apply orb_false_iff in Hb. destruct Hb as [Hb1 Hb2].
  cbn [replace_from]. rewrite Hb1. f_equal.
  exact (replace_absent (" "%char :: k') new b ltac:(discriminate) Hb2).
Qed.

(** The keyword looked for is replaced. *)
Lemma replace_this_keyword (core new : str) :
  occurs (" "%char :: core ++ [" "%char]) b = false ->
  replace (" "%char :: core ++ [" "%char]) new
          (a ++ " "%char :: core ++ " "%char :: b)
  = a ++ new ++ b.
Proof.
  intros Hb. unfold replace.
  rewrite (replace_from_skip " "%char (core ++ [" "%char]) new a _ a_no_space).
  f_equal.
  replace (" "%char :: core ++ " "%char :: b)
    with ((" "%char :: core ++ [" "%char]) ++ b)
    by (cbn [app]; rewrite <- app_assoc; reflexivity).
  rewrite replace_from_match. f_equal.
  exact (replace_absent (" "%char :: core ++ [" "%char]) new b
           ltac:(discriminate) Hb).
Qed.

(** After the replacement nothing more is found. *)
Lemma replace_after_keyword (k' new : str) (op : ascii) :
  " "%char <> op -> occurs (" "%char :: k') b = false ->
  replace (" "%char :: k') new (a ++ op :: b) = a ++ op :: b.
Proof.
  intros Hop Hb. unfold replace.
  rewrite (replace_from_skip " "%char k' new a _ a_no_space). f_equal.
  cbn [replace_from starts_with].
  destruct (Ascii.eqb " " op) eqn:E;
    [apply Ascii.eqb_eq in E; congruence|]. cbn [andb]. f_equal.
  exact (replace_absent (" "%char :: k') new b ltac:(discriminate) Hb).
Qed.

End KeywordText.

Lemma occurs_after_space (old b : str) :
  occurs old (" "%char :: b) = false -> occurs old b = false.
Proof. cbn [occurs]. intros H. apply orb_false_iff in H. apply H. Qed.

(** A word, a keyword between two spaces, and operand text that holds
    none of the four forms: only the keyword becomes a symbol. *)
Lemma normalise_keyword_text (kw : str) (op : ascii) (a b : str) :
  In (kw, op) keywords -> word a = true -> free_text b = true ->
  replace_items value_dict (a ++ " "%char :: kw ++ " "%char :: b)
  = a ++ op :: b.
Proof.
  intros K Wa Tb.
  destruct (word_inv a Wa) as (Sa & Fa & Qa & _).
  unfold free_text in Tb. rewrite !andb_true_iff, !negb_true_iff in Tb.
  destruct Tb as (((Fb & Ob) & Qb) & Kb).
  unfold keyword_free, keyword_forms in Kb. cbn [forallb] in Kb.
  rewrite !andb_true_iff, !negb_true_iff in Kb.
  destruct Kb as (K1 & K2 & K3 & K4 & _).
  assert (F : flat (a ++ " "%char :: kw ++ " "%char :: b) = true).
  { rewrite flat_app, Fa. cbn [andb].
    change (" "%char :: kw ++ " "%char :: b)
      with ((" "%char :: kw) ++ " "%char :: b).
    rewrite flat_app.
    change (" "%char :: b) with ([" "%char] ++ b). rewrite flat_app, Fb.
    unfold keywords in K. cbn [In] in K.
    destruct K as [K|[K|[K|[K|[]]]]];
      apply pair_equal_spec in K; destruct K as [<- <-]; reflexivity. }
  assert (Q : forall x, dq_char <> x ->
                        replace [dq_char] (lit "") (a ++ x :: b) = a ++ x :: b).
  { intros x Hx. apply replace_absent; [discriminate|].
    apply occurs_char_false. apply not_In_joined; [exact Qa| |exact Hx].
    apply occurs_char_false. exact Qb. }
  rewrite replace_items_value_dict, (pad_parens_flat _ F).
  change dq with [dq_char].
  change (lit " OR ") with (" "%char :: lit "OR" ++ [" "%char]) in *.
  change (lit " or ") with (" "%char :: lit "or" ++ [" "%char]) in *.
  change (lit " AND ") with (" "%char :: lit "AND" ++ [" "%char]) in *.
  change (lit " and ") with (" "%char :: lit "and" ++ [" "%char]) in *.
  assert (B1 := occurs_after_space _ _ K1).
  assert (B2 := occurs_after_space _ _ K2).
  assert (B3 := occurs_after_space _ _ K3).
  assert (B4 := occurs_after_space _ _ K4).
  unfold keywords in K. cbn [In] in K.
  destruct K as [K|[K|[K|[K|[]]]]];
    apply pair_equal_spec in K; destruct K as [<- <-].
  - rewrite (replace_this_keyword a b Sa (lit "OR") (lit "|") B1).
    change (a ++ lit "|" ++ b) with (a ++ "|"%char :: b).
    rewrite (replace_after_keyword a b Sa _ _ "|"%char ltac:(discriminate) B2).
    rewrite (replace_after_keyword a b Sa _ _ "|"%char ltac:(discriminate) B3).
    rewrite (replace_after_keyword a b Sa _ _ "|"%char ltac:(discriminate) B4).
    apply Q. discriminate.
  - rewrite (replace_other_keyword a b Sa (lit "OR" ++ [" "%char])
               (lit "or") (lit "|"));
      [|intros [N|[N|[]]]; discriminate|reflexivity|exact K1].
    rewrite (replace_this_keyword a b Sa (lit "or") (lit "|") B2).
    change (a ++ lit "|" ++ b) with (a ++ "|"%char :: b).
    rewrite (replace_after_keyword a b Sa _ _ "|"%char ltac:(discriminate) B3).
    rewrite (replace_after_keyword a b Sa _ _ "|"%char ltac:(discriminate) B4).
    apply Q. discriminate.
  - rewrite (replace_other_keyword a b Sa (lit "OR" ++ [" "%char])
               (lit "AND") (lit "|"));
      [|intros [N|[N|[N|[]]]]; discriminate|reflexivity|exact K1].
    rewrite (replace_other_keyword a b Sa (lit "or" ++ [" "%char])
               (lit "AND") (lit "|"));
      [|intros [N|[N|[N|[]]]]; discriminate|reflexivity|exact K2].
    rewrite (replace_this_keyword a b Sa (lit "AND") (lit "&") B3).
    change (a ++ lit "&" ++ b) with (a ++ "&"%char :: b).
    rewrite (replace_after_keyword a b Sa _ _ "&"%char ltac:(discriminate) B4).
    apply Q. discriminate.
  - rewrite (replace_other_keyword a b Sa (lit "OR" ++ [" "%char])
               (lit "and") (lit "|"));
      [|intros [N|[N|[N|[]]]]; discriminate|reflexivity|exact K1].
    rewrite (replace_other_keyword a b Sa (lit "or" ++ [" "%char])
               (lit "and") (lit "|"));
      [|intros [N|[N|[N|[]]]]; discriminate|reflexivity|exact K2].
    rewrite (replace_other_keyword a b Sa (lit "AND" ++ [" "%char])
               (lit "and") (lit "&"));
      [|intros [N|[N|[N|[]]]]; discriminate|reflexivity|exact K3].
    rewrite (replace_this_keyword a b Sa (lit "and") (lit "&") B4).
    change (a ++ lit "&" ++ b) with (a ++ "&"%char :: b).
    apply Q. discriminate.
Qed.

(** The text after the keyword is one leaf, whatever words it holds. *)
Lemma create_exp_tree_keyword_text (kw : str) (op : ascii) (a b : str) :
  In (kw, op) keywords -> word a = true -> free_text b = true ->
  create_exp_tree
    (replace_items value_dict (a ++ " "%char :: kw ++ " "%char :: b))
  = Ok (mkNode [op] (Some (new_node (strip a))) (Some (new_node (strip b)))).
Proof.
  intros K Wa Tb. rewrite (normalise_keyword_text kw op a b K Wa Tb).
  destruct (word_inv a Wa) as (_ & Fa & _ & Oa).
  unfold free_text in Tb. rewrite !andb_true_iff, !negb_true_iff in Tb.
  destruct Tb as (((Fb & Ob) & _) & _).
  destruct (keywords_op kw op K) as [Hop _].
  destruct (split_at_last_operator a b op) as (tl & El & E).
  - exact Hop.
  - apply flat_depth, Fa.
  - exact Ob.
  - apply flat_second_test. rewrite flat_app, Fa.
    change (op :: b) with ([op] ++ b). rewrite flat_app, Fb.
    cbn [andb]. rewrite andb_true_r.
    apply flat_iff. intros c [<-|[]]. apply is_op_delta, Hop.
  - rewrite (create_exp_tree_leaf _ (has_op_strip _ Oa)) in El.
    injection El as <-. exact E.
Qed.

(* ================================================================= *)
(** ** The one error of the builder *)

Lemma for_each_raise {A S : Type} (body : S -> A -> result S)
      (P : exn -> Prop) (xs : list A) :
  (forall st x e, In x xs -> body st x = Raise e -> P e) ->
  forall st e, for_each body xs st = Raise e -> P e.
Proof.
  induction xs as [|x xs IH]; intros Hb st e E; [discriminate|].
  cbn [for_each] in E. destruct (body st x) as [st1|e1] eqn:E1;
    cbn [bind] in E.
  - apply (IH (fun st0 y e0 Hy => Hb st0 y e0 (or_intror Hy)) st1 e E).
  - injection E as <-. exact (Hb st x e1 (or_introl eq_refl) E1).
Qed.

Lemma scan_step_raise (rec : str -> result Node) (exp : str)
      (st : scan_state) (i : nat) (e : exn) :
  i < length exp -> scan_step rec exp st i = Raise e ->
  exists s, rec s = Raise e.
Proof.
  intros Hi. destruct st as [lopen node]. unfold scan_step.
  destruct (char_at_range exp i Hi) as (c & ->). cbn [bind].
  destruct (Ascii.eqb c "("); [discriminate|].
  destruct (Ascii.eqb c ")"); [discriminate|].
  destruct (is_op c && (lopen =? 0)%Z); [|discriminate].
  destruct (rec (strip (slice exp None (Some (Z.of_nat i))))) as [tl|e1] eqn:El;
    cbn [bind]; [|intros [= <-]; eexists; exact El].
  destruct (rec (strip (slice exp (Some (Z.of_nat i + 1)%Z) None)))
    as [tr|e2] eqn:Er; cbn [bind]; [discriminate|].
  intros [= <-]. eexists. exact Er.
Qed.

(** Whatever the allowance, the builder raises nothing but
    [RecursionError]. *)
Lemma create_exp_tree_within_raise (budget : nat) :
  forall exp e, create_exp_tree_within budget exp = Raise e -> e = OutOfBudget.
Proof.
  induction budget as [|budget IH]; intros exp e; cbn [create_exp_tree_within].
  { intros [= <-]. reflexivity. }
  rewrite first_test. destruct (has_op exp) eqn:Hop; cbn [negb];
    [|discriminate].
  destruct (_ && _).
  { destruct (generate_node_ok _ (has_op_unparen exp Hop)) as (t & -> & _).
    discriminate. }
  destruct (for_each _ _ _) as [st|e1] eqn:E; cbn [bind].
  - destruct (snd st); [discriminate|]. apply IH.
  - intros [= <-].
    apply (for_each_raise (scan_step (create_exp_tree_within budget) exp)
             (fun e => e = OutOfBudget) (seq 0 (length exp)))
      with (st := (0%Z, @None Node)); [|exact E].
    intros st0 x e0 Hx E0. apply in_range in Hx.
    destruct (scan_step_raise _ exp st0 x e0 Hx E0) as (s0 & Es).
    exact (IH s0 e0 Es).
Qed.

(** Under an interpreter that allows two nested calls the builder
    stops on the unbalanced input, which needs three. *)
Lemma create_exp_tree_within_too_deep :
  create_exp_tree_within 2 (lit " ( A&B") = Raise OutOfBudget
  /\ create_exp_tree_within 3 (lit " ( A&B") = Ok (new_node (lit " A")).
Proof. split; vm_compute; reflexivity. Qed.

(* ================================================================= *)
(** * The claims *)

(** C1, as the specification states it, fails: the input [(A AND B] has
    an unclosed parenthesis, and yet the builder returns a tree for its
    normalised text, the single leaf [ A], and [generate_query] returns
    a query for it. *)
Lemma unbalanced_expression_builds_tree :
  balanced (lit "(A AND B") = false /\
  replace_items value_dict (lit "(A AND B") = lit " ( A&B" /\
  create_exp_tree (lit " ( A&B") = Ok (new_node (lit " A")) /\
  fst (generate_query (lit "(A AND B") (lit "SQL") (module_world []))
  = Ok (lit "SELECT * FROM Resume WHERE text like '% A%").
Proof. repeat split; vm_compute; reflexivity. Qed.

(** C1, amended: the builder validates nothing and has no error of its
    own.  For every expression, with balanced parentheses or not, with
    or without an empty operand position, it returns a tree as soon as
    the interpreter allows more nested calls than the expression has
    characters, and under any allowance the one way it can fail is the
    interpreter's [RecursionError]. *)
Theorem create_exp_tree_fails_by_depth_only (budget : nat) (exp : str) :
  (length exp < budget ->
   exists t, create_exp_tree_within budget exp = Ok t)
  /\ (forall e, create_exp_tree_within budget exp = Raise e ->
                e = OutOfBudget).
Proof.
  split.
  - intros H. destruct (create_exp_tree_within_ok budget exp H) as (t & E & _).
    exists t. exact E.
  - apply create_exp_tree_within_raise.
Qed.

(** The unbalanced input of the specification, under an interpreter
    that allows seven nested calls. *)
Lemma create_exp_tree_fails_by_depth_only_witness :
  exists t,
    create_exp_tree_within 7 (replace_items value_dict (lit "(A AND B"))
    = Ok t.
Proof.
  exact (proj1 (create_exp_tree_fails_by_depth_only 7
                  (replace_items value_dict (lit "(A AND B")))
           (le_n 7)).
Defined.

(** C2: in a flat chain [first op1 a1 ... opn an op last] the builder
    splits at the last operator: the root holds [op], its right child is
    the single leaf of the stripped [last], and its left child is the
    tree built from the text before [op], which groups to the left, the
    first two operands combined deepest. *)
Theorem flat_chain_left_associative
        (first : str) (rest : list (ascii * str)) (op : ascii) (last : str) :
  operand first = true -> forallb link rest = true ->
  is_op op = true -> operand last = true ->
  create_exp_tree (chain first (rest ++ [(op, last)]))
  = Ok (mkNode [op] (Some (left_assoc first rest))
               (Some (new_node (strip last))))
  /\ create_exp_tree (strip (chain first rest)) = Ok (left_assoc first rest).
Proof.
  intros Hf Hr Hop Hl.
  assert (El := create_exp_tree_chain first rest Hf Hr).
  split; [|exact El]. rewrite chain_snoc.
  destruct (split_at_last_operator (chain first rest) last op)
    as (tl & Etl & E).
  - exact Hop.
  - apply flat_depth, flat_chain; assumption.
  - apply operand_has_op, Hl.
  - apply flat_second_test. rewrite <- chain_snoc. apply flat_chain; [exact Hf|].
    rewrite forallb_app, Hr. cbn [forallb]. unfold link. cbn [fst snd].
    rewrite Hop, Hl. reflexivity.
  - rewrite El in Etl. injection Etl as <-. exact E.
Qed.

(** The chain [A AND B AND C]. *)
Lemma flat_chain_left_associative_witness :
  create_exp_tree (replace_items value_dict (lit "A AND B AND C"))
  = Ok (mkNode (lit "&")
          (Some (mkNode (lit "&") (Some (new_node (lit "A")))
                        (Some (new_node (lit "B")))))
          (Some (new_node (lit "C")))).
Proof.
  exact (proj1 (flat_chain_left_associative
                  (lit "A") [("&"%char, lit "B")] "&"%char (lit "C")
                  eq_refl eq_refl eq_refl eq_refl)).
Defined.

(** C3 fails on the code.  For the single operand [Java] the SQL body
    is the leaf text cut by [[1:-1]]: the leading space and the closing
    quote of the predicate are dropped, so the query ends in an unclosed
    pattern.  And a single operand given with spaces around it is kept
    as it is, not stripped. *)
Theorem single_operand_sql_clause_truncated (out : list str) :
  fst (generate_query (lit "Java") (lit "SQL") (module_world out))
  = Ok (lit "SELECT * FROM Resume WHERE text like '%Java%")
  /\ create_exp_tree (lit " Java ") = Ok (new_node (lit " Java "))
  /\ strip (lit " Java ") = lit "Java".
Proof. repeat split; vm_compute; reflexivity. Qed.

(** C4 fails on the code.  An unknown type such as [XML] is answered by
    the message below and nothing else happens, but the message names
    three types only: ELASTICSEARCH, a key of [BASE_QUERIES], is not in
    it in any casing. *)
Theorem unsupported_backend_message (exp : str) (out : list str) :
  generate_query exp (lit "XML") (module_world out)
  = (Ok (lit "Invalid query type request. SQL, MONGODB, and ORM are only currently accepted query types"),
     module_world out)
  /\ occurs (lit "ELASTICSEARCH") (upper invalid_request) = false
  /\ mem (lit "ELASTICSEARCH") (keys base_queries) = true.
Proof.
  split; [|split; vm_compute; reflexivity].
  apply generate_query_invalid. vm_compute. reflexivity.
Qed.

(** C5 fails on the code.  For the example the MongoDB text has the
    upper-case keys [$OR] and [$AND], not [$or] and [$and], and the two
    inner groups stand in the array without braces of their own. *)
Theorem mongodb_example_output (out : list str) :
  fst (generate_query example (lit "MONGODB") (module_world out))
  = Ok (quoted "{ $OR : [ $AND : [{`text` : /.*Java.*/i}, {`text` : /.*Spring.*/i}],  $AND : [{`text` : /.*Python.*/i}, {`text` : /.*Django.*/i}]]}").
Proof. vm_compute. reflexivity. Qed.

(** C6 fails on the code.  For the example the ElasticSearch text has
    the upper-case keys [SHOULD] and [MUST], not [should] and [must],
    and every leaf is a [match] clause whose text is inside a third,
    never closed brace. *)
Theorem elasticsearch_example_output (out : list str) :
  fst (generate_query example (lit "ELASTICSEARCH") (module_world out))
  = Ok (quoted " `query`:  { `bool` : { `SHOULD` : [ { `bool` : { `MUST` : [{`match` : { `text` : {`Java`} } , {`match` : { `text` : {`Spring`} } ]} },  { `bool` : { `MUST` : [{`match` : { `text` : {`Python`} } , {`match` : { `text` : {`Django`} } ]} }]} }").
Proof. vm_compute. reflexivity. Qed.

(** C7 fails on the code for a tree that is a single leaf: [[1:-1]] is
    applied whether or not the body is parenthesised, and cuts the leaf
    predicate.  On the example, whose root is an operator, the body is
    as the claim says. *)
Theorem sql_single_leaf_body_cut (out : list str) :
  inorder (new_node (lit "Java")) = lit " text like '%Java%'"
  /\ create_query (module_world out) (new_node (lit "Java")) (lit "SQL")
     = Ok (lit "SELECT * FROM Resume WHERE text like '%Java%")
  /\ fst (generate_query example (lit "SQL") (module_world out))
     = Ok (lit "SELECT * FROM Resume WHERE ( text like '%Java%' AND  text like '%Spring%') OR ( text like '%Python%' AND  text like '%Django%')").
Proof. repeat split; vm_compute; reflexivity. Qed.

(** C8: a call returns what the same call returned before, whatever
    calls were made in between; no call changes the dictionaries. *)
Theorem generate_query_deterministic
        (exp query_type : str) (calls : list (str * str)) (w : World) :
  let w1 := snd (generate_query exp query_type w) in
  fst (generate_query exp query_type (run calls w1))
  = fst (generate_query exp query_type w)
  /\ globals (run calls w1) = globals w.
Proof.
  cbn zeta.
  assert (G : globals (run calls (snd (generate_query exp query_type w)))
              = globals w).
  { rewrite run_globals. apply generate_query_globals. }
  split; [|exact G]. apply generate_query_reads_globals, G.
Qed.

(** C9: the builder returns a tree for every expression, and in that
    tree every node has both children or none, every node with children
    holds an operator symbol, and the children are trees of that kind. *)
Theorem create_exp_tree_well_formed (exp : str) :
  exists t,
    create_exp_tree exp = Ok t
    /\ well_formed t = true
    /\ forall n, In n (nodes t) -> paired n.
Proof.
  destruct (create_exp_tree_ok exp) as (t & E & W).
  exists t. repeat split; [exact E|exact W|].
  apply well_formed_paired, W.
Qed.

(** C10, as stated, fails: in [(A)AND(B)] the keyword has no space on
    either side and none of the four forms occurs, and yet it becomes
    the operator [&], because the parentheses are padded with spaces
    first. *)
Lemma keyword_between_parentheses_is_operator :
  keyword_free (lit "(A)AND(B)") = true /\
  has_op (lit "(A)AND(B)") = false /\
  replace_items value_dict (lit "(A)AND(B)") = lit " ( A )&( B ) " /\
  create_exp_tree (lit " ( A )&( B ) ")
  = Ok (mkNode (lit "&") (Some (new_node (lit "( A )")))
               (Some (new_node (lit "( B )")))).
Proof. repeat split; vm_compute; reflexivity. Qed.

(** C10, amended: every parenthesis gets a space on each side first,
    and the keywords are looked for in that padded text.  For every
    expression the normalised text is the padded text in which nothing
    but exact occurrences of a space, [OR], [or], [AND] or [and], and a
    space have become [|] or [&], every other character kept in its
    place, and from which the double quotes are then deleted: it never
    holds a double quote.  So a keyword in another casing, or without
    the two spaces, stays in the operand.  When the expression has no
    [|] and no [&] and none of the four forms occurs in the padded
    text, the normalised text holds no operator and is parsed as one
    operand; and in [a kw b], with [a] a word and [b] text that holds
    none of the four forms, the keyword alone becomes the operator and
    the whole of [b] is the right leaf. *)
Theorem normalisation_keeps_other_keywords (exp : str) :
  (exists q, recognised (pad_parens exp) q
             /\ replace_items value_dict exp = unquoted q)
  /\ ~ In dq_char (replace_items value_dict exp)
  /\ (has_op exp = false -> keyword_free (pad_parens exp) = true ->
      replace_items value_dict exp = replace dq (lit "") (pad_parens exp)
      /\ has_op (replace_items value_dict exp) = false
      /\ create_exp_tree (replace_items value_dict exp)
         = Ok (new_node (replace_items value_dict exp)))
  /\ (forall kw op a b,
        exp = a ++ " "%char :: kw ++ " "%char :: b ->
        In (kw, op) keywords -> word a = true -> free_text b = true ->
        replace_items value_dict exp = a ++ op :: b
        /\ create_exp_tree (replace_items value_dict exp)
           = Ok (mkNode [op] (Some (new_node (strip a)))
                        (Some (new_node (strip b))))).
Proof.
  split; [apply replace_items_recognised|].
  split; [apply normalised_no_quote|]. split.
  - intros Hop Hk.
    assert (E := normalised_keyword_free exp Hk).
    assert (H : has_op (replace_items value_dict exp) = false).
    { rewrite E. apply has_op_false_In. intros c Hc.
      change dq with [dq_char] in Hc. apply In_replace_char in Hc.
      destruct Hc as [[Hc _]|[_ []]].
      exact (proj1 (has_op_false_In _) (has_op_pad_parens exp Hop) c Hc). }
    repeat split.
    + exact E.
    + exact H.
    + apply create_exp_tree_leaf, H.
  - intros kw op a b -> K Wa Tb. split.
    + apply normalise_keyword_text; assumption.
    + apply create_exp_tree_keyword_text; assumption.
Qed.

(** Other casings of the keywords stay in the operand, alone or after
    a keyword that is recognised. *)
Lemma normalisation_keeps_other_keywords_witness :
  create_exp_tree (replace_items value_dict (lit "Java And Spring oR (Go)"))
  = Ok (new_node (lit "Java And Spring oR  ( Go ) "))
  /\ create_exp_tree (replace_items value_dict (lit "A AND B And C"))
     = Ok (mkNode (lit "&") (Some (new_node (lit "A")))
                  (Some (new_node (lit "B And C")))).
Proof.
  split.
  - exact (proj2 (proj2
      (proj1 (proj2 (proj2
         (normalisation_keeps_other_keywords
            (lit "Java And Spring oR (Go)"))))
         eq_refl eq_refl))).
  - exact (proj2
      (proj2 (proj2 (proj2
         (normalisation_keeps_other_keywords (lit "A AND B And C"))))
         (lit "AND") "&"%char (lit "A") (lit "B And C") eq_refl
         (or_intror (or_intror (or_introl eq_refl))) eq_refl eq_refl)).
Defined.

(* ================================================================= *)
(** * The further properties, with their instances *)

(** X1: when the expression has an operator, none of them met at depth
    0, and it does not go to [generate_node], the builder parses
    [exp[1:-1]]: the first and the last character are dropped whatever
    they are. *)
Theorem create_exp_tree_drops_ends (exp : str) :
  has_op exp = true -> has_top_op 0 exp = false ->
  (count "("%char exp <? 1)%nat
    && str_eqb (slice exp (Some (-1)%Z) None) (lit ")") = false ->
  create_exp_tree exp = create_exp_tree (slice exp (Some 1%Z) (Some (-1)%Z)).
Proof. exact (create_exp_tree_inner exp). Qed.

(** In [ ( A&B] the characters dropped are a space and the [B]. *)
Lemma create_exp_tree_drops_ends_witness :
  create_exp_tree (lit " ( A&B") = create_exp_tree (lit "( A&").
Proof.
  exact (create_exp_tree_drops_ends (lit " ( A&B") eq_refl eq_refl eq_refl).
Defined.

(** X2: an operator met at depth 0, with no operator at depth 0 after
    it, is the root of the tree; its children are the trees of the
    stripped text before it and after it, parenthesised or not. *)
Theorem create_exp_tree_last_top_operator (l r : str) (op : ascii) :
  is_op op = true -> depth l = 0%Z -> has_top_op 0 r = false ->
  (count "("%char (l ++ op :: r) <? 1)%nat
    && str_eqb (slice (l ++ op :: r) (Some (-1)%Z) None) (lit ")") = false ->
  exists tl tr,
    create_exp_tree (strip l) = Ok tl /\
    create_exp_tree (strip r) = Ok tr /\
    create_exp_tree (l ++ op :: r) = Ok (mkNode [op] (Some tl) (Some tr)).
Proof. exact (create_exp_tree_top_split l r op). Qed.

Lemma create_exp_tree_last_top_operator_witness :
  exists tl tr,
    create_exp_tree (lit "(A|B)") = Ok tl /\
    create_exp_tree (lit "(C&D)") = Ok tr /\
    create_exp_tree (lit "(A|B) & (C&D)")
    = Ok (mkNode (lit "&") (Some tl) (Some tr)).
Proof.
  exact (create_exp_tree_last_top_operator
           (lit "(A|B) ") (lit " (C&D)") "&"%char
           eq_refl eq_refl eq_refl eq_refl).
Defined.

(** The normalised text of the example of the module. *)
Lemma create_exp_tree_groups_witness :
  exists t1 t2,
    create_exp_tree (lit " Java&Spring ") = Ok t1 /\
    create_exp_tree (lit " Python&Django ") = Ok t2 /\
    create_exp_tree (replace_items value_dict example)
    = Ok (mkNode (lit "|") (Some t1) (Some t2)).
Proof.
  exact (create_exp_tree_groups
           (lit " ") (lit " Java&Spring ") (lit " ")
           (lit " ") (lit " Python&Django ") (lit " ") "|"%char
           eq_refl eq_refl eq_refl eq_refl eq_refl eq_refl eq_refl eq_refl
           eq_refl).
Defined.

(** X4: [generate_node] raises [TypeError] on a text without operator;
    otherwise it splits at the first [|], or without any [|] at the
    first [&], and makes leaves of the stripped text on each side,
    whatever operators the right side holds. *)
Theorem generate_node_first_operator (a b : str) (op : ascii) :
  (has_op a = false -> generate_node a = Raise TypeError)
  /\ (is_op op = true -> has_op a = false ->
      (op = "&"%char -> ~ In "|"%char b) ->
      generate_node (a ++ op :: b)
      = Ok (mkNode [op] (Some (new_node (strip a)))
                   (Some (new_node (strip b))))).
Proof.
  split; [apply generate_node_no_operator|apply generate_node_split].
Qed.

Lemma generate_node_first_operator_witness :
  generate_node (lit "A") = Raise TypeError
  /\ generate_node (lit "A & B&C")
     = Ok (mkNode (lit "&") (Some (new_node (lit "A")))
                  (Some (new_node (lit "B&C")))).
Proof.
  split.
  - exact (proj1 (generate_node_first_operator (lit "A") [] "&"%char)
             eq_refl).
  - refine (proj2 (generate_node_first_operator
                     (lit "A ") (lit " B&C") "&"%char)
              eq_refl eq_refl _).
    intros _ H. cbn in H. intuition discriminate.
Defined.


(** The type in lower case, as [create_query] never gets it from
    [generate_query]. *)
Lemma create_query_unknown_witness :
  create_query (module_world []) (new_node (lit "Java")) (lit "sql")
  = Raise KeyError.
Proof.
  exact (create_query_unknown (module_world []) (new_node (lit "Java"))
           (lit "sql") eq_refl).
Defined.

(** X8: every character of every value in the tree that the builder
    returns is a character of the expression: the builder makes up no
    text. *)
Theorem create_exp_tree_drawn (exp : str) :
  exists t, create_exp_tree exp = Ok t /\ drawn_from exp t.
Proof.
  destruct (create_exp_tree_ok exp) as (t & E & _). exists t.
  split; [exact E|]. exact (create_exp_tree_within_drawn _ exp t E).
Qed.

Lemma create_exp_tree_keyword_witness :
  create_exp_tree (replace_items value_dict (lit "Java AND Spring"))
  = Ok (mkNode (lit "&") (Some (new_node (lit "Java")))
               (Some (new_node (lit "Spring")))).
Proof.
  exact (create_exp_tree_keyword (lit "AND") "&"%char (lit "Java")
           (lit "Spring")
           (or_intror (or_intror (or_introl eq_refl))) eq_refl eq_refl).
Defined.

Lemma create_query_renamed_witness :
  create_query (module_world []) sample_tree (lit "ORM")
  = Ok (lit "Q(Q(text__icontains='Java') , Q(text__icontains='Spring')) | Q(text__icontains='Python')")
  /\ create_query (module_world []) sample_tree (lit "MONGODB")
     = Ok (quoted "{ $OR : [ $AND : [{`text` : /.*Java.*/i}, {`text` : /.*Spring.*/i}], {`text` : /.*Python.*/i}]}")
  /\ create_query (module_world []) sample_tree (lit "ELASTICSEARCH")
     = Ok (quoted " `query`:  { `bool` : { `SHOULD` : [ { `bool` : { `MUST` : [{`match` : { `text` : {`Java`} } , {`match` : { `text` : {`Spring`} } ]} }, {`match` : { `text` : {`Python`} } ]} }").
Proof.
  exact (create_query_renamed [] sample_tree eq_refl eq_refl).
Defined.

Lemma create_query_sql_operator_root_witness :
  exists body,
    sql_form sample_tree = lit "(" ++ body ++ lit ")" /\
    create_query (module_world []) sample_tree (lit "SQL")
    = Ok (lit "SELECT * FROM Resume WHERE " ++ body).
Proof.
  exact (create_query_sql_operator_root []
           (lit "|")
           (mkNode (lit "&") (Some (new_node (lit "Java")))
                   (Some (new_node (lit "Spring"))))
           (new_node (lit "Python")) eq_refl eq_refl).
Defined.

Lemma create_query_leaf_witness :
  create_query (module_world []) (new_node (lit "Java")) (lit "SQL")
  = Ok (lit "SELECT * FROM Resume WHERE text like '%Java%")
  /\ create_query (module_world []) (new_node (lit "Java")) (lit "MONGODB")
     = Ok (quoted "{{`text` : /.*Java.*/i}}")
  /\ create_query (module_world []) (new_node (lit "Java")) (lit "ORM")
     = Ok (lit "text__icontains='Java'")
  /\ create_query (module_world []) (new_node (lit "Java"))
       (lit "ELASTICSEARCH")
     = Ok (quoted " `query`: {`match` : { `text` : {`Java`} } ").
Proof. exact (create_query_leaf [] (lit "Java") eq_refl). Defined.

(** X14: a flat chain of operands in one pair of parentheses, nothing
    outside, is parsed as the chain without the parentheses. *)
Theorem create_exp_tree_unwraps (c : str) :
  flat c = true -> has_op c = true ->
  create_exp_tree ("("%char :: c ++ [")"%char]) = create_exp_tree c.
Proof. exact (create_exp_tree_parenthesised c). Qed.

Lemma create_exp_tree_unwraps_witness :
  create_exp_tree (lit "(A&B|C)") = create_exp_tree (lit "A&B|C").
Proof. exact (create_exp_tree_unwraps (lit "A&B|C") eq_refl eq_refl). Defined.
